(** * A shallow embedding of the KAMIS scraper
    ([teddybear/spiders/kamis.py]): value parsers, the market/county
    resolver, the header mapper, the table extractor, the reference cache
    of [DatabaseManager], its deduplicating batched persistence and the
    coordinator [KAMISScraper.run]. *)

From Stdlib Require Import List Bool Arith ZArith NArith Lia.
From Stdlib Require Import Strings.String Strings.Ascii.
Import ListNotations.

Open Scope list_scope.

(** ** Text

    A Python [str] is a sequence of code points. *)

Definition text := list N.

(** ASCII literals as texts. *)
Fixpoint t (s : string) : text :=
  match s with
  | EmptyString => []
  | String c s' => N_of_ascii c :: t s'
  end.

Fixpoint text_eqb (a b : text) : bool :=
  match a, b with
  | [], [] => true
  | x :: a', y :: b' => N.eqb x y && text_eqb a' b'
  | _, _ => false
  end.

(** [str.isspace] and the [\s] class of [re] on [str] patterns. *)
Definition is_space (c : N) : bool :=
  ((9 <=? c) && (c <=? 13))%N || ((28 <=? c) && (c <=? 32))%N
  || N.eqb c 133 || N.eqb c 160 || N.eqb c 5760
  || ((8192 <=? c) && (c <=? 8202))%N
  || N.eqb c 8232 || N.eqb c 8233 || N.eqb c 8239 || N.eqb c 8287
  || N.eqb c 12288.

Fixpoint lstrip (s : text) : text :=
  match s with
  | c :: s' => if is_space c then lstrip s' else s
  | [] => []
  end.

(** [str.strip()]. *)
Definition strip (s : text) : text := rev (lstrip (rev (lstrip s))).

Definition is_upper (c : N) : bool := ((65 <=? c) && (c <=? 90))%N.
Definition is_lower (c : N) : bool := ((97 <=? c) && (c <=? 122))%N.
Definition is_cased (c : N) : bool := is_upper c || is_lower c.
Definition to_lower (c : N) : N := if is_upper c then (c + 32)%N else c.
Definition to_upper (c : N) : N := if is_lower c then (c - 32)%N else c.

(** [str.lower()] (case mapping on the ASCII letters). *)
Definition lower (s : text) : text := map to_lower s.

(** [str.title()]: a cased character after a cased one is lowered, any
    other is upper-cased (case mapping on the ASCII letters). *)
Fixpoint title_from (prev_cased : bool) (s : text) : text :=
  match s with
  | [] => []
  | c :: s' =>
      (if prev_cased then to_lower c else to_upper c)
        :: title_from (is_cased c) s'
  end.

Definition title (s : text) : text := title_from false s.

(** [p in s] for strings. *)
Fixpoint prefixb (p s : text) : bool :=
  match p, s with
  | [], _ => true
  | x :: p', y :: s' => N.eqb x y && prefixb p' s'
  | _ :: _, [] => false
  end.

Fixpoint infixb (p s : text) : bool :=
  prefixb p s || match s with [] => false | _ :: s' => infixb p s' end.

(** [x in l] for a list of strings. *)
Definition memb (x : text) (l : list text) : bool :=
  existsb (text_eqb x) l.

(** ** Header mapper ([find_column_index] inside [scrape_product]) *)

Definition header_map : list (text * list text) :=
  [ (t "market", [t "market"; t "market name"; t "soko"]);
    (t "county", [t "county"; t "region"; t "county name"]);
    (t "classification", [t "classification"; t "variety"; t "type"]);
    (t "grade", [t "grade"; t "quality"]);
    (t "sex", [t "sex"; t "gender"]);
    (t "wholesale", [t "wholesale price"; t "wholesale"; t "w/sale price"]);
    (t "retail", [t "retail price"; t "retail"; t "price"]);
    (t "volume", [t "supply volume"; t "volume"; t "quantity"; t "supply"]);
    (t "date", [t "date"; t "price date"; t "recorded date"]) ].

(** [any(v in h for v in variants)] *)
Definition header_matches (variants : list text) (h : text) : bool :=
  existsb (fun v => infixb v h) variants.

(** [for i, h in enumerate(headers): if ...: return i] *)
Fixpoint scan_headers (variants : list text) (i : Z) (headers : list text)
  : option Z :=
  match headers with
  | [] => None
  | h :: hs =>
      if header_matches variants h then Some i
      else scan_headers variants (i + 1)%Z hs
  end.

Fixpoint find_in_map (headers : list text) (target : text)
    (m : list (text * list text)) : Z :=
  match m with
  | [] => (-1)%Z
  | (key, variants) :: m' =>
      if text_eqb target key then
        match scan_headers variants 0%Z headers with
        | Some i => i
        | None => find_in_map headers target m'
        end
      else find_in_map headers target m'
  end.

Definition find_column_index (headers : list text) (target : text) : Z :=
  find_in_map headers target header_map.

Record idx_map := {
  ix_market : Z; ix_county : Z; ix_classification : Z; ix_grade : Z;
  ix_sex : Z; ix_wholesale : Z; ix_retail : Z; ix_volume : Z; ix_date : Z }.

Definition make_idx_map (headers : list text) : idx_map := {|
  ix_market := find_column_index headers (t "market");
  ix_county := find_column_index headers (t "county");
  ix_classification := find_column_index headers (t "classification");
  ix_grade := find_column_index headers (t "grade");
  ix_sex := find_column_index headers (t "sex");
  ix_wholesale := find_column_index headers (t "wholesale");
  ix_retail := find_column_index headers (t "retail");
  ix_volume := find_column_index headers (t "volume");
  ix_date := find_column_index headers (t "date") |}.

(** [th.get_text(strip=True).lower()] on each header cell. *)
Definition header_texts (ths : list text) : list text :=
  map (fun h => lower (strip h)) ths.

Definition sample_headers : list text :=
  [t "Market Name"; t "County"; t "Wholesale Price"; t "Retail Price";
   t "Supply Volume"; t "Date"].

(** ** Value parsers *)

Definition is_digit (c : N) : bool := ((48 <=? c) && (c <=? 57))%N.
Definition digit_val (c : N) : N := (c - 48)%N.
Definition dot : N := 46%N.

(** A [decimal.Decimal]: sign, coefficient and number of fractional
    digits (the value is [coef * 10 ^ (- scale)]). *)
Record decimal := mkDecimal { dec_neg : bool; dec_coef : N; dec_scale : nat }.

Definition push_digit (acc : N) (c : N) : N := (acc * 10 + digit_val c)%N.

Definition digits_val (l : text) : N := fold_left push_digit l 0%N.

(** [Decimal(s)] on a string of digits and decimal points (the only strings
    the parsers hand to it): digits, at most one point, at least one digit;
    anything else raises [InvalidOperation] ([None] here). *)
Fixpoint frac_part (s : text) (coef : N) (ndig scale : nat) : option decimal :=
  match s with
  | [] => if Nat.eqb ndig 0 then None else Some (mkDecimal false coef scale)
  | c :: s' =>
      if is_digit c then frac_part s' (push_digit coef c) (S ndig) (S scale)
      else None
  end.

Fixpoint int_part (s : text) (coef : N) (ndig : nat) : option decimal :=
  match s with
  | [] => if Nat.eqb ndig 0 then None else Some (mkDecimal false coef 0)
  | c :: s' =>
      if is_digit c then int_part s' (push_digit coef c) (S ndig)
      else if N.eqb c dot then frac_part s' coef ndig 0
      else None
  end.

Definition decimal_of_text (s : text) : option decimal := int_part s 0%N 0.

(** Python truthiness of a [Decimal]: false exactly for zero. *)
Definition dec_truthy (d : decimal) : bool := negb (N.eqb (dec_coef d) 0).

(** [not value or value in ('-', '', 'N/A')] *)
Definition absent_marker (v : text) : bool :=
  match v with [] => true | _ => memb v [t "-"; t ""; t "N/A"] end.

(** [re.sub(r'[^\d.]', '', value)] *)
Definition clean_price (v : text) : text :=
  filter (fun c => is_digit c || N.eqb c dot) v.

(** [KAMISScraper._parse_price] *)
Definition parse_price (v : text) : option decimal :=
  if absent_marker v then None
  else
    let cleaned := clean_price v in
    match cleaned with
    | [] => None
    | _ => decimal_of_text cleaned
    end.

Fixpoint drop_nondigits (s : text) : text :=
  match s with
  | [] => []
  | c :: s' => if is_digit c then s else drop_nondigits s'
  end.

Fixpoint take_digits (s : text) : text :=
  match s with
  | [] => []
  | c :: s' => if is_digit c then c :: take_digits s' else []
  end.

(** [re.findall(r'\d+', value.replace(',', ''))[0]], if any. *)
Definition first_number (v : text) : option text :=
  match take_digits (drop_nondigits (filter (fun c => negb (N.eqb c 44)) v)) with
  | [] => None
  | n => Some n
  end.

(** [KAMISScraper._parse_volume] *)
Definition parse_volume (v : text) : option decimal :=
  if absent_marker v then None
  else match first_number v with
       | Some n => decimal_of_text n
       | None => None
       end.

(** *** Dates: [datetime.strptime] on the four formats of [_parse_date] *)

Record date := mkDate { year : N; month : N; day : N }.

Definition is_leap (y : N) : bool :=
  (N.eqb (y mod 4) 0 && negb (N.eqb (y mod 100) 0)) || N.eqb (y mod 400) 0.

Definition days_in_month (y m : N) : N :=
  match m with
  | 2%N => if is_leap y then 29 else 28
  | 4%N | 6%N | 9%N | 11%N => 30
  | _ => 31
  end.

(** What [datetime.date(y, m, d)] accepts. *)
Definition valid_date (d : date) : bool :=
  (1 <=? year d)%N && (year d <=? 9999)%N && (1 <=? month d)%N
  && (month d <=? 12)%N && (1 <=? day d)%N
  && (day d <=? days_in_month (year d) (month d))%N.

(** Items of a compiled strptime format. *)
Inductive fmt_item := FY | Fm | Fd | FLit (c : N).

(** [_strptime]'s translation of a format string ([%] directives and
    literal characters). *)
Fixpoint compile_format (f : text) : list fmt_item :=
  match f with
  | 37%N :: 89%N :: f' => FY :: compile_format f'
  | 37%N :: 109%N :: f' => Fm :: compile_format f'
  | 37%N :: 100%N :: f' => Fd :: compile_format f'
  | c :: f' => FLit c :: compile_format f'
  | [] => []
  end.

(** Matches of one item, in the order the regex engine tries them.
    [Y]: [\d\d\d\d]; [m]: [1[0-2]|0[1-9]|[1-9]];
    [d]: [3[0-1]|[1-2]\d|0[1-9]|[1-9]| [1-9]]. *)
Definition two (a b : N) : N := (digit_val a * 10 + digit_val b)%N.

Definition in_range (lo hi c : N) : bool := ((lo <=? c) && (c <=? hi))%N.

Definition match_item (it : fmt_item) (s : text) : list (option N * text) :=
  match it with
  | FY =>
      match s with
      | a :: b :: c :: d :: s' =>
          if is_digit a && is_digit b && is_digit c && is_digit d
          then [(Some (two a b * 100 + two c d)%N, s')] else []
      | _ => []
      end
  | Fm =>
      (match s with
       | a :: b :: s' => if N.eqb a 49 && in_range 48 50 b then [(Some (two a b), s')] else []
       | _ => [] end)
      ++ (match s with
          | a :: b :: s' => if N.eqb a 48 && in_range 49 57 b then [(Some (two a b), s')] else []
          | _ => [] end)
      ++ (match s with
          | a :: s' => if in_range 49 57 a then [(Some (digit_val a), s')] else []
          | _ => [] end)
  | Fd =>
      (match s with
       | a :: b :: s' => if N.eqb a 51 && in_range 48 49 b then [(Some (two a b), s')] else []
       | _ => [] end)
      ++ (match s with
          | a :: b :: s' => if in_range 49 50 a && is_digit b then [(Some (two a b), s')] else []
          | _ => [] end)
      ++ (match s with
          | a :: b :: s' => if N.eqb a 48 && in_range 49 57 b then [(Some (two a b), s')] else []
          | _ => [] end)
      ++ (match s with
          | a :: s' => if in_range 49 57 a then [(Some (digit_val a), s')] else []
          | _ => [] end)
      ++ (match s with
          | a :: b :: s' => if N.eqb a 32 && in_range 49 57 b then [(Some (digit_val b), s')] else []
          | _ => [] end)
  | FLit c =>
      match s with
      | a :: s' => if N.eqb a c then [(None, s')] else []
      | [] => []
      end
  end.

(** Captured fields: year, month, day. *)
Definition fields := (option N * option N * option N)%type.

Definition set_field (it : fmt_item) (v : option N) (fs : fields) : fields :=
  match it, v, fs with
  | FY, Some n, (_, m, d) => (Some n, m, d)
  | Fm, Some n, (y, _, d) => (y, Some n, d)
  | Fd, Some n, (y, m, _) => (y, m, Some n)
  | _, _, _ => fs
  end.

(** All matches of a compiled format at the start of [s], in the order of
    the backtracking search. *)
Fixpoint match_format (its : list fmt_item) (fs : fields) (s : text)
  : list (fields * text) :=
  match its with
  | [] => [(fs, s)]
  | it :: its' =>
      flat_map (fun '(v, s1) => match_format its' (set_field it v fs) s1)
        (match_item it s)
  end.

(** [datetime.strptime(s, fmt).date()]; [None] is [ValueError]: no match,
    unconverted data after the first match, or a date out of range. *)
Definition strptime (fmt : text) (s : text) : option date :=
  match match_format (compile_format fmt) (None, None, None) s with
  | [] => None
  | (fs, rest) :: _ =>
      match rest with
      | _ :: _ => None
      | [] =>
          let '(y, m, d) := fs in
          let dt := mkDate (match y with Some v => v | None => 1900 end)
                           (match m with Some v => v | None => 1 end)
                           (match d with Some v => v | None => 1 end) in
          if valid_date dt then Some dt else None
      end
  end.

Definition date_formats : list text :=
  [t "%Y-%m-%d"; t "%d/%m/%Y"; t "%d-%m-%Y"; t "%m/%d/%Y"].

Fixpoint try_formats (fmts : list text) (s : text) : option date :=
  match fmts with
  | [] => None
  | f :: fs =>
      match strptime f s with
      | Some d => Some d
      | None => try_formats fs s
      end
  end.

(** [KAMISScraper._parse_date]; [today] is [date.today()]. *)
Definition parse_date (today : date) (v : text) : date :=
  match try_formats date_formats (strip v) with
  | Some d => d
  | None => today
  end.

(** ** Market/county resolver ([_extract_county_from_market])

    The three patterns are sequences of single-character classes, each
    possibly quantified and possibly captured. [re.match] returns the first
    match of the backtracking search: the alternatives of each item are
    tried in order (shortest first for a lazy quantifier, longest first for
    a greedy one). *)

Inductive rx :=
| RChar (p : N -> bool)
| RRun (lazy : bool) (min : nat) (p : N -> bool)
| RGroup (r : rx).

Fixpoint run_length (p : N -> bool) (s : text) : nat :=
  match s with
  | c :: s' => if p c then S (run_length p s') else 0
  | [] => 0
  end.

(** [seq lo n] ascending, or its reverse. *)
Definition counts (lazy : bool) (lo hi : nat) : list nat :=
  if lazy then seq lo (S hi - lo) else rev (seq lo (S hi - lo)).

(** Matches of one item: captures and the remaining input. *)
Fixpoint match_rx (r : rx) (s : text) : list (list text * text) :=
  match r with
  | RChar p =>
      match s with
      | c :: s' => if p c then [([], s')] else []
      | [] => []
      end
  | RRun lazy min p =>
      let k := run_length p s in
      if Nat.ltb k min then []
      else map (fun n => ([], skipn n s)) (counts lazy min k)
  | RGroup r' =>
      map (fun '(cs, rest) => (firstn (List.length s - List.length rest) s :: cs, rest))
        (match_rx r' s)
  end.

Fixpoint match_seq (rs : list rx) (s : text) : list (list text * text) :=
  match rs with
  | [] => [([], s)]
  | r :: rs' =>
      flat_map (fun '(c1, s1) =>
                  map (fun '(c2, s2) => (c1 ++ c2, s2)) (match_seq rs' s1))
        (match_rx r s)
  end.

(** [re.match(pattern, s)]: the captured groups of the first match. *)
Definition re_match (rs : list rx) (s : text) : option (list text) :=
  match match_seq rs s with
  | (cs, _) :: _ => Some cs
  | [] => None
  end.

(** [.] : any character but a newline. *)
Definition any_char (c : N) : bool := negb (N.eqb c 10).
Definition is_char (x : N) (c : N) : bool := N.eqb c x.

(** The class [[-â€“]] as the source file spells it: its bytes are the
    UTF-8 encoding of '-', 'â' (U+00E2), '€' (U+20AC) and '“' (U+201C). *)
Definition dash_class (c : N) : bool :=
  N.eqb c 45 || N.eqb c 226 || N.eqb c 8364 || N.eqb c 8220.

(** [r'(.+?)\s*[-â€“]\s*(.+)'] *)
Definition pat_dash : list rx :=
  [RGroup (RRun true 1 any_char); RRun false 0 is_space; RChar dash_class;
   RRun false 0 is_space; RGroup (RRun false 1 any_char)].

(** [r'(.+?)\s*\((.+?)\)'] *)
Definition pat_paren : list rx :=
  [RGroup (RRun true 1 any_char); RRun false 0 is_space; RChar (is_char 40);
   RGroup (RRun true 1 any_char); RChar (is_char 41)].

(** [r'(.+?)\s*,\s*(.+)'] *)
Definition pat_comma : list rx :=
  [RGroup (RRun true 1 any_char); RRun false 0 is_space; RChar (is_char 44);
   RRun false 0 is_space; RGroup (RRun false 1 any_char)].

Definition market_patterns : list (list rx) := [pat_dash; pat_paren; pat_comma].

Fixpoint first_split (pats : list (list rx)) (s : text) : option (text * text) :=
  match pats with
  | [] => None
  | p :: ps =>
      match re_match p s with
      | Some (g1 :: g2 :: _) => Some (strip g1, strip g2)
      | _ => first_split ps s
      end
  end.

(** [KAMISScraper._extract_county_from_market] *)
Definition extract_county_from_market (market_text : text) : text * text :=
  match first_split market_patterns market_text with
  | Some mc => mc
  | None => (strip market_text, t "Unknown")
  end.

(** "Wakulima – Nairobi" with an en dash (U+2013). *)
Definition en_dash_sample : text := t "Wakulima " ++ [8211%N] ++ t " Nairobi".

(** ** Exceptions *)

Inductive exn :=
| IndexError
| ValueError
| FetchError (code : nat)      (** raised by the page source *)
| ParseError (code : nat).     (** raised by the HTML parser *)

Inductive result (A : Type) :=
| Ok (a : A)
| Err (e : exn).
Arguments Ok {A} a.
Arguments Err {A} e.

Definition bind {A B} (m : result A) (f : A -> result B) : result B :=
  match m with Ok a => f a | Err e => Err e end.

Notation "x <- m ;; k" := (bind m (fun x => k))
  (at level 61, m at next level, right associativity).

(** ** Scraped records and the table extractor ([scrape_product]) *)

Record ScrapedRecord := {
  product_name : text;
  market_name : text;
  county_name : text;
  classification : option text;
  grade : option text;
  sex : option text;
  wholesale_price : option decimal;
  retail_price : option decimal;
  supply_volume : option decimal;
  price_date : date }.

(** A parsed HTML cell: its text nodes, in document order. *)
Definition cell := list text.

(** [tag.get_text(strip=True)]: each text node stripped, empty ones
    dropped, the rest concatenated. *)
Definition get_text (c : cell) : text :=
  List.concat (filter (fun s => negb (text_eqb s [])) (map strip c)).

(** The table [soup.find('table', class_='table table-bordered
    table-condensed')]: the [th] cells of its [thead] and the [td] cells of
    each [tr] of its [tbody], when these sections exist. *)
Record table := { thead : option (list cell); tbody : option (list (list cell)) }.

Fixpoint digits_of (width : nat) (n : N) : text :=
  match width with
  | O => []
  | S w => digits_of w (n / 10) ++ [(48 + n mod 10)%N]
  end.

(** [str(d)] for a date: [YYYY-MM-DD]. *)
Definition iso_format (d : date) : text :=
  digits_of 4 (year d) ++ [45%N] ++ digits_of 2 (month d) ++ [45%N]
  ++ digits_of 2 (day d).

(** [cells[i].get_text(strip=True)] for [i >= 0]; [IndexError] past the end. *)
Definition cell_text (cells : list cell) (i : Z) : result text :=
  match nth_error cells (Z.to_nat i) with
  | Some c => Ok (get_text c)
  | None => Err IndexError
  end.

(** [cells[idx].get_text(strip=True) if idx >= 0 else default] *)
Definition opt_cell (cells : list cell) (i : Z) (default : text) : result text :=
  if (0 <=? i)%Z then cell_text cells i else Ok default.

Definition opt_cell_none (cells : list cell) (i : Z) : result (option text) :=
  if (0 <=? i)%Z then (s <- cell_text cells i ;; Ok (Some s)) else Ok None.

(** [x or "Unknown"] *)
Definition or_unknown (s : text) : text :=
  match s with [] => t "Unknown" | _ => s end.

(** The body of the row loop of [scrape_product] for one row of at least
    three cells. *)
Definition scrape_row (today : date) (ix : idx_map) (product : text)
    (cells : list cell) : result ScrapedRecord :=
  market_text <- opt_cell cells (ix_market ix) [] ;;
  mc <- (if (0 <=? ix_county ix)%Z
         then (c <- cell_text cells (ix_county ix) ;; Ok (market_text, c))
         else Ok (extract_county_from_market market_text)) ;;
  date_text <- opt_cell cells (ix_date ix) (iso_format today) ;;
  cls <- opt_cell_none cells (ix_classification ix) ;;
  grd <- opt_cell_none cells (ix_grade ix) ;;
  sx <- opt_cell_none cells (ix_sex ix) ;;
  ws <- opt_cell cells (ix_wholesale ix) [] ;;
  rt <- opt_cell cells (ix_retail ix) [] ;;
  vol <- opt_cell cells (ix_volume ix) [] ;;
  Ok {| product_name := product;
        market_name := fst mc;
        county_name := or_unknown (snd mc);
        classification := cls; grade := grd; sex := sx;
        wholesale_price := parse_price ws;
        retail_price := parse_price rt;
        supply_volume := parse_volume vol;
        price_date := parse_date today date_text |}.

(** [for row in tbody.find_all('tr')]: rows of fewer than three cells are
    skipped; an exception in any row ends the whole extraction. *)
Fixpoint scrape_rows (today : date) (ix : idx_map) (product : text)
    (rows : list (list cell)) : result (list ScrapedRecord) :=
  match rows with
  | [] => Ok []
  | cells :: rows' =>
      if Nat.ltb (List.length cells) 3 then scrape_rows today ix product rows'
      else
        r <- scrape_row today ix product cells ;;
        rs <- scrape_rows today ix product rows' ;;
        Ok (r :: rs)
  end.

(** [[th.get_text(strip=True).lower() for th in thead.find_all('th')]], or
    [[]] without a [thead]. *)
Definition table_headers (tb : table) : list text :=
  match thead tb with
  | Some ths => map (fun th => lower (get_text th)) ths
  | None => []
  end.

(** The body of the [try] of [scrape_product] after the fetch. *)
Definition scrape_table (today : date) (product : text) (page : option table)
  : result (list ScrapedRecord) :=
  match page with
  | None => Ok []
  | Some tb =>
      let ix := make_idx_map (table_headers tb) in
      match tbody tb with
      | None => Ok []
      | Some rows => scrape_rows today ix product rows
      end
  end.

(** [scrape_product]: the page source ([_fetch] and the parse up to the
    table lookup) may raise; every exception is caught and yields []. *)
Definition scrape_product (today : date) (fetch_page : nat -> result (option table))
    (pid : nat) (product : text) : list ScrapedRecord :=
  match (page <- fetch_page pid ;; scrape_table today product page) with
  | Ok rs => rs
  | Err _ => []
  end.

(** ** The store and [DatabaseManager] *)

(** [float(d)] of a [Decimal], kept symbolic: no claim depends on the
    binary64 rounding. *)
Record pyfloat := py_float { float_src : decimal }.

(** A row of [price_records]. *)
Record price_row := {
  pr_commodity_id : nat;
  pr_market_id : nat;
  pr_classification : option text;
  pr_grade : option text;
  pr_sex : option text;
  pr_wholesale_price : option pyfloat;
  pr_retail_price : option pyfloat;
  pr_supply_volume : option pyfloat;
  pr_record_date : text }.

(** Inserts issued against [price_records], with the store's answer. *)
Inductive event :=
| BulkInsert (rows : list price_row) (ok : bool)
| RowInsert (row : price_row) (ok : bool).

(** The logical tables (rows in insertion order, as [select] returns them),
    the id sequence, the three caches of [DatabaseManager._cache] used by
    the lookups, and the log of price-record inserts. *)
Record db := {
  categories : list (nat * text);
  counties : list (nat * text);
  commodities : list (nat * text * option nat);
  markets : list (nat * text * nat);
  prices : list price_row;
  next_id : nat;
  cache_counties : list (text * nat);
  cache_commodities : list (text * nat);
  cache_markets : list (text * nat);
  log : list event }.

Fixpoint lookup (k : text) (d : list (text * nat)) : option nat :=
  match d with
  | [] => None
  | (k', v) :: d' => if text_eqb k k' then Some v else lookup k d'
  end.

(** [d[k] = v] *)
Definition dict_set (k : text) (v : nat) (d : list (text * nat)) : list (text * nat) :=
  (k, v) :: filter (fun p => negb (text_eqb k (fst p))) d.

Definition set_counties st l :=
  {| categories := categories st; counties := l; commodities := commodities st;
     markets := markets st; prices := prices st; next_id := next_id st;
     cache_counties := cache_counties st; cache_commodities := cache_commodities st;
     cache_markets := cache_markets st; log := log st |}.
Definition set_commodities st l :=
  {| categories := categories st; counties := counties st; commodities := l;
     markets := markets st; prices := prices st; next_id := next_id st;
     cache_counties := cache_counties st; cache_commodities := cache_commodities st;
     cache_markets := cache_markets st; log := log st |}.
Definition set_markets st l :=
  {| categories := categories st; counties := counties st; commodities := commodities st;
     markets := l; prices := prices st; next_id := next_id st;
     cache_counties := cache_counties st; cache_commodities := cache_commodities st;
     cache_markets := cache_markets st; log := log st |}.
Definition set_prices st l ev :=
  {| categories := categories st; counties := counties st; commodities := commodities st;
     markets := markets st; prices := l; next_id := next_id st;
     cache_counties := cache_counties st; cache_commodities := cache_commodities st;
     cache_markets := cache_markets st; log := ev |}.
Definition bump_id st :=
  {| categories := categories st; counties := counties st; commodities := commodities st;
     markets := markets st; prices := prices st; next_id := S (next_id st);
     cache_counties := cache_counties st; cache_commodities := cache_commodities st;
     cache_markets := cache_markets st; log := log st |}.
Definition set_caches st cc cm mk :=
  {| categories := categories st; counties := counties st; commodities := commodities st;
     markets := markets st; prices := prices st; next_id := next_id st;
     cache_counties := cc; cache_commodities := cm; cache_markets := mk; log := log st |}.

(** [name.strip().title()] *)
Definition normalize (s : text) : text := title (strip s).

(** [_get_or_create_county] *)
Definition get_or_create_county (name : text) (st : db) : nat * db :=
  let n := normalize name in
  match lookup n (cache_counties st) with
  | Some id => (id, st)
  | None =>
      let '(id, st1) :=
        match find (fun r => text_eqb (snd r) n) (counties st) with
        | Some (id, _) => (id, st)
        | None =>
            let id := next_id st in
            (id, bump_id (set_counties st (counties st ++ [(id, n)])))
        end in
      (id, set_caches st1 (dict_set n id (cache_counties st1))
                      (cache_commodities st1) (cache_markets st1))
  end.

Definition category_map : list (text * list text) :=
  [ (t "Grains", map t ["maize"; "beans"; "rice"; "wheat"; "sorghum"; "millet";
                        "greengrams"; "ndengu"]%string);
    (t "Vegetables", map t ["cabbage"; "kale"; "spinach"; "tomato"; "onion";
                            "potato"; "carrot"; "pepper"; "eggplant"; "lettuce"]%string);
    (t "Fruits", map t ["mango"; "banana"; "orange"; "apple"; "pineapple";
                        "watermelon"; "avocado"; "passion"]%string);
    (t "Livestock", map t ["cattle"; "goat"; "sheep"; "pig"; "chicken"; "broiler";
                           "layer"; "beef"; "mutton"]%string);
    (t "Fish", map t ["fish"; "tilapia"; "nile perch"; "omena"; "sardine"]%string) ].

Definition category_id (cats : list (nat * text)) (name : text) : option nat :=
  match find (fun r => text_eqb (snd r) name) cats with
  | Some (id, _) => Some id
  | None => None
  end.

(** [_categorize_product]: a matching category missing from the table lets
    the loop go on to the next one. *)
Definition categorize_product (product : text) (st : db) : option nat :=
  let name_lower := lower product in
  let fix go (m : list (text * list text)) : option nat :=
    match m with
    | [] => category_id (categories st) (t "Other")
    | (cat, kws) :: m' =>
        if existsb (fun k => infixb k name_lower) kws then
          match category_id (categories st) cat with
          | Some id => Some id
          | None => go m'
          end
        else go m'
    end in
  go category_map.

(** [_get_or_create_commodity] *)
Definition get_or_create_commodity (product : text) (st : db) : nat * db :=
  let n := normalize product in
  match lookup n (cache_commodities st) with
  | Some id => (id, st)
  | None =>
      let cat := categorize_product n st in
      let '(id, st1) :=
        match find (fun r => text_eqb (snd (fst r)) n) (commodities st) with
        | Some (id, _, _) => (id, st)
        | None =>
            let id := next_id st in
            (id, bump_id (set_commodities st (commodities st ++ [(id, n, cat)])))
        end in
      (id, set_caches st1 (cache_counties st1)
                      (dict_set n id (cache_commodities st1)) (cache_markets st1))
  end.

(** [f"{market_name.strip().title()}_{county_name.strip().title()}"] *)
Definition market_key (m c : text) : text := normalize m ++ [95%N] ++ normalize c.

(** [_get_or_create_market] *)
Definition get_or_create_market (m c : text) (st : db) : nat * db :=
  let key := market_key m c in
  match lookup key (cache_markets st) with
  | Some id => (id, st)
  | None =>
      let '(cid, st1) := get_or_create_county c st in
      let mn := normalize m in
      let '(id, st2) :=
        match find (fun r => text_eqb (snd (fst r)) mn && Nat.eqb (snd r) cid)
                   (markets st1) with
        | Some (id, _, _) => (id, st1)
        | None =>
            let id := next_id st1 in
            (id, bump_id (set_markets st1 (markets st1 ++ [(id, mn, cid)])))
        end in
      (id, set_caches st2 (cache_counties st2) (cache_commodities st2)
                      (dict_set key id (cache_markets st2)))
  end.

Definition BATCH_SIZE : nat := 100.

(** The dict staged by [insert_price_records] for one record:
    [float(x) if x else None] on each numeric field. *)
Definition to_float (x : option decimal) : option pyfloat :=
  match x with
  | Some d => if dec_truthy d then Some (py_float d) else None
  | None => None
  end.

Definition make_row (cid mid : nat) (r : ScrapedRecord) : price_row := {|
  pr_commodity_id := cid;
  pr_market_id := mid;
  pr_classification := classification r;
  pr_grade := grade r;
  pr_sex := sex r;
  pr_wholesale_price := to_float (wholesale_price r);
  pr_retail_price := to_float (retail_price r);
  pr_supply_volume := to_float (supply_volume r);
  pr_record_date := iso_format (price_date r) |}.

(** The existence check on [(commodity_id, market_id, record_date)]. *)
Definition row_exists (rows : list price_row) (cid mid : nat) (d : text) : bool :=
  existsb (fun p => Nat.eqb (pr_commodity_id p) cid && Nat.eqb (pr_market_id p) mid
                    && text_eqb (pr_record_date p) d) rows.

Section Persistence.

(** The store's answer to an insert into [price_records] of the given rows,
    holding the given rows already: [true] when it succeeds, [false] when
    [execute()] raises. *)
Variable accepts : list price_row -> list price_row -> bool.

Fixpoint insert_each (batch : list price_row) (count : nat) (st : db) : nat * db :=
  match batch with
  | [] => (count, st)
  | item :: rest =>
      if accepts (prices st) [item] then
        insert_each rest (S count)
          (set_prices st (prices st ++ [item]) (log st ++ [RowInsert item true]))
      else
        insert_each rest count
          (set_prices st (prices st) (log st ++ [RowInsert item false]))
  end.

(** [_execute_batch_insert] *)
Definition execute_batch_insert (batch : list price_row) (st : db) : nat * db :=
  if accepts (prices st) batch then
    (List.length batch,
     set_prices st (prices st ++ batch) (log st ++ [BulkInsert batch true]))
  else
    insert_each batch 0 (set_prices st (prices st) (log st ++ [BulkInsert batch false])).

(** The [for record in records] loop: inserted count, staged batch, state,
    when no record's preparation raises (the per-record [except] branch,
    which logs and skips the record, is modelled by [ipr_loop_ex]). *)
Fixpoint ipr_loop (records : list ScrapedRecord) (count : nat)
    (batch : list price_row) (st : db) : nat * list price_row * db :=
  match records with
  | [] => (count, batch, st)
  | r :: rs =>
      let '(cid, st1) := get_or_create_commodity (product_name r) st in
      let '(mid, st2) := get_or_create_market (market_name r) (county_name r) st1 in
      if row_exists (prices st2) cid mid (iso_format (price_date r)) then
        ipr_loop rs count batch st2
      else
        let batch' := batch ++ [make_row cid mid r] in
        if Nat.leb BATCH_SIZE (List.length batch') then
          let '(n, st3) := execute_batch_insert batch' st2 in
          ipr_loop rs (count + n) [] st3
        else ipr_loop rs count batch' st2
  end.

(** [insert_price_records] *)
Definition insert_price_records (records : list ScrapedRecord) (st : db) : nat * db :=
  match records with
  | [] => (0, st)
  | _ =>
      let '(count, batch, st1) := ipr_loop records 0 [] st in
      match batch with
      | [] => (count, st1)
      | _ => let '(n, st2) := execute_batch_insert batch st1 in (count + n, st2)
      end
  end.

End Persistence.

(** A store that takes every insert (no unique constraint). *)
Definition accept_all (_ _ : list price_row) : bool := true.

Definition empty_db : db := {|
  categories := [(1, t "Grains"); (2, t "Vegetables"); (3, t "Fruits");
                 (4, t "Livestock"); (5, t "Fish"); (6, t "Other")];
  counties := []; commodities := []; markets := []; prices := [];
  next_id := 7; cache_counties := []; cache_commodities := [];
  cache_markets := []; log := [] |}.

Definition maize_record (cls : option text) : ScrapedRecord := {|
  product_name := t "Dry Maize"; market_name := t "Wakulima";
  county_name := t "Nairobi"; classification := cls; grade := None; sex := None;
  wholesale_price := Some (mkDecimal false 5000 0);
  retail_price := Some (mkDecimal false 0 2);
  supply_volume := None; price_date := mkDate 2024 1 15 |}.

(** ** Coordinator ([get_product_list], [run]) *)

(** A product of the dropdown: id and name. *)
Definition product := (nat * text)%type.

(** [value.isdigit()], on ASCII digits only: Python's [isdigit] also holds
    for other Unicode digits (such as superscripts), on which the [int]
    conversion may raise; such values are not modelled. *)
Definition all_digits (v : text) : bool :=
  match v with [] => false | _ => forallb is_digit v end.

(** The [option] tags of the dropdown: [value] attribute and content. *)
Fixpoint products_of_options (opts : list (option text * cell)) : list product :=
  match opts with
  | [] => []
  | (Some v, c) :: os =>
      if all_digits v then (N.to_nat (digits_val v), strip (List.concat c))
                             :: products_of_options os
      else products_of_options os
  | (None, _) :: os => products_of_options os
  end.

(** [if specific_products: products = [p for p in products if p['name'] in
    specific_products]] *)
Definition select_products (specific : option (list text)) (ps : list product)
  : list product :=
  match specific with
  | Some ((_ :: _) as l) => filter (fun p => memb (snd p) l) ps
  | _ => ps
  end.

Section Coordinator.

Variable accepts : list price_row -> list price_row -> bool.
(** [date.today()] during the run. *)
Variable today : date.
(** The product page for an id: its data table, if any; may raise. *)
Variable fetch_page : nat -> result (option table).
(** The base page: the options of [select name=product], if found; may
    raise. *)
Variable product_page : result (option (list (option text * cell))).

(** [get_product_list] *)
Definition get_product_list : result (list product) :=
  page <- product_page ;;
  match page with
  | None => Err ValueError
  | Some opts => Ok (products_of_options opts)
  end.

(** The [for product in products] loop of [run]. *)
Fixpoint run_loop (ps : list product) (total : nat) (st : db) : nat * db :=
  match ps with
  | [] => (total, st)
  | (pid, name) :: ps' =>
      match scrape_product today fetch_page pid name with
      | [] => run_loop ps' total st
      | records =>
          let '(inserted, st1) := insert_price_records accepts records st in
          run_loop ps' (total + inserted) st1
      end
  end.

(** [KAMISScraper.run] *)
Definition run (specific : option (list text)) (st : db) : result nat * db :=
  match get_product_list with
  | Err e => (Err e, st)
  | Ok ps =>
      let '(total, st1) := run_loop (select_products specific ps) 0 st in
      (Ok total, st1)
  end.

(** The count each product contributes, the store threaded from one
    product to the next. *)
Fixpoint product_counts (ps : list product) (st : db) : list nat :=
  match ps with
  | [] => []
  | (pid, name) :: ps' =>
      let '(n, st1) :=
        insert_price_records accepts (scrape_product today fetch_page pid name) st in
      n :: product_counts ps' st1
  end.

End Coordinator.

(** * Notions of the specification *)

(** A decimal numeral as the price parser's spec reads it: digits, an
    optional point, digits, with at least one digit. *)
Definition numeral (c l r : text) (has_point : bool) : Prop :=
  forallb is_digit l = true /\ forallb is_digit r = true /\ l ++ r <> [] /\
  c = l ++ (if has_point then [dot] else []) ++ r /\
  (has_point = false -> r = []).

(** How the spec determines a row's county: the county cell when a county
    column is mapped, else the county the resolver finds in the market
    cell. *)
Definition row_county (ix : idx_map) (cells : list cell) : result text :=
  if (0 <=? ix_county ix)%Z then cell_text cells (ix_county ix)
  else (m <- opt_cell cells (ix_market ix) [] ;;
        Ok (snd (extract_county_from_market m))).

(** How the spec determines a row's market name: the market cell text as it
    stands when a county column is mapped, else the market part the
    resolver leaves of it. *)
Definition row_market (ix : idx_map) (cells : list cell) : result text :=
  m <- opt_cell cells (ix_market ix) [] ;;
  Ok (if (0 <=? ix_county ix)%Z then m else fst (extract_county_from_market m)).

(** The operations of one run that touch the reference tables: the three
    lookups, and whole batches ingested by [insert_price_records]. *)
Inductive ref_call :=
| GetCounty (name : text)
| GetCommodity (name : text)
| GetMarket (market county : text)
| Ingest (accepts : list price_row -> list price_row -> bool)
         (records : list ScrapedRecord).

Definition exec_call (c : ref_call) (st : db) : nat * db :=
  match c with
  | GetCounty n => get_or_create_county n st
  | GetCommodity n => get_or_create_commodity n st
  | GetMarket m c => get_or_create_market m c st
  | Ingest acc rs => insert_price_records acc rs st
  end.

Fixpoint exec_calls (cs : list ref_call) (st : db) : list nat * db :=
  match cs with
  | [] => ([], st)
  | c :: cs' =>
      let '(x, st1) := exec_call c st in
      let '(xs, st2) := exec_calls cs' st1 in
      (x :: xs, st2)
  end.

(** Two lookups of the same entity: names equal after trimming and
    title-casing (and the same normalized county for markets). *)
Definition same_key (c c' : ref_call) : Prop :=
  match c, c' with
  | GetCounty a, GetCounty b => normalize a = normalize b
  | GetCommodity a, GetCommodity b => normalize a = normalize b
  | GetMarket m c, GetMarket m' c' => normalize m = normalize m' /\ normalize c = normalize c'
  | _, _ => False
  end.

(** [new] is [old] with rows appended whose keys are pairwise distinct and
    absent from [old]: nothing removed or changed, and at most one insert
    per key. *)
Definition fresh_ext {R K : Type} (key : R -> K) (old new : list R) : Prop :=
  exists add, new = old ++ add /\ NoDup (map key add) /\
              forall r, In r add -> ~ In (key r) (map key old).

Definition county_key (r : nat * text) : text := snd r.
Definition commodity_key (r : nat * text * option nat) : text := snd (fst r).
Definition market_row_key (r : nat * text * nat) : text * nat := (snd (fst r), snd r).

Definition cache_grows (c c' : list (text * nat)) : Prop :=
  forall k v, lookup k c = Some v -> lookup k c' = Some v.

(** What one step of a run may do to the reference side of the state. *)
Definition grows (st st' : db) : Prop :=
  cache_grows (cache_counties st) (cache_counties st') /\
  cache_grows (cache_commodities st) (cache_commodities st') /\
  cache_grows (cache_markets st) (cache_markets st') /\
  fresh_ext county_key (counties st) (counties st') /\
  fresh_ext commodity_key (commodities st) (commodities st') /\
  fresh_ext market_row_key (markets st) (markets st') /\
  categories st' = categories st.

(** The price-record inserts of one flush of a staged batch: a bulk insert
    that succeeds stores the batch; one that fails is followed by one
    single-row insert per row of the batch, in order, and stores the rows
    whose insert succeeded. *)
Fixpoint row_events (b : list price_row) (oks : list bool) : list event :=
  match b, oks with
  | r :: b', ok :: oks' => RowInsert r ok :: row_events b' oks'
  | _, _ => []
  end.

Fixpoint kept (b : list price_row) (oks : list bool) : list price_row :=
  match b, oks with
  | r :: b', true :: oks' => r :: kept b' oks'
  | _ :: b', false :: oks' => kept b' oks'
  | _, _ => []
  end.

Inductive flush : list event -> list price_row -> list price_row -> Prop :=
| flush_bulk b : flush [BulkInsert b true] b b
| flush_rows b oks :
    List.length oks = List.length b ->
    flush (BulkInsert b false :: row_events b oks) b (kept b oks).

(** A sequence of flushes: their events, their batches and, per batch,
    the rows it stored, in order. *)
Inductive flushes : list event -> list (list price_row) -> list (list price_row) -> Prop :=
| flushes_nil : flushes [] [] []
| flushes_snoc evs bs ss e b s :
    flushes evs bs ss -> flush e b s ->
    flushes (evs ++ e) (bs ++ [b]) (ss ++ [s]).

(** [insert_price_records] with the [except Exception: continue] of its
    loop.  Preparing a record (the two lookups and the existence select)
    calls the store, which may raise: [raises i] says whether preparing the
    [i]-th record raises, and [after_raise i st] is the store left by the
    calls made before the exception.  The record is then skipped. *)
Section PreparationFaults.

Variable accepts : list price_row -> list price_row -> bool.
Variable raises : nat -> bool.
Variable after_raise : nat -> db -> db.

Fixpoint ipr_loop_ex (i : nat) (records : list ScrapedRecord) (count : nat)
    (batch : list price_row) (st : db) : nat * list price_row * db :=
  match records with
  | [] => (count, batch, st)
  | r :: rs =>
      if raises i then ipr_loop_ex (S i) rs count batch (after_raise i st)
      else
        let '(cid, st1) := get_or_create_commodity (product_name r) st in
        let '(mid, st2) := get_or_create_market (market_name r) (county_name r) st1 in
        if row_exists (prices st2) cid mid (iso_format (price_date r)) then
          ipr_loop_ex (S i) rs count batch st2
        else
          let batch' := batch ++ [make_row cid mid r] in
          if Nat.leb BATCH_SIZE (List.length batch') then
            let '(n, st3) := execute_batch_insert accepts batch' st2 in
            ipr_loop_ex (S i) rs (count + n) [] st3
          else ipr_loop_ex (S i) rs count batch' st2
  end.

Definition insert_price_records_ex (records : list ScrapedRecord) (st : db) : nat * db :=
  match records with
  | [] => (0, st)
  | _ =>
      let '(count, batch, st1) := ipr_loop_ex 0 records 0 [] st in
      match batch with
      | [] => (count, st1)
      | _ => let '(n, st2) := execute_batch_insert accepts batch st1 in (count + n, st2)
      end
  end.

End PreparationFaults.

(** The ids the caches of [st] give a record's commodity and market. *)
Definition rec_ids (st : db) (r : ScrapedRecord) (cid mid : nat) : Prop :=
  lookup (normalize (product_name r)) (cache_commodities st) = Some cid /\
  lookup (market_key (market_name r) (county_name r)) (cache_markets st) = Some mid.

(** The rows stored by the batches flushed once [sofar] has been staged:
    one flush per [BATCH_SIZE] staged rows. *)
Definition flushed_before (ss : list (list price_row)) (sofar : list price_row)
  : list price_row :=
  List.concat (firstn (List.length sofar / BATCH_SIZE) ss).

(** How the records of a call are staged, record [i] onwards, [sofar]
    being the rows staged before: a record whose preparation raises is
    skipped; any other one is looked up ([rec_ids] in the final store
    [st']) and checked against the rows the store held before the call
    ([base]) and those stored by the batches flushed so far ([ss] lists
    the rows stored per batch); it is staged exactly when no row has its
    commodity, market and date. [out] lists the staged rows. *)
Inductive staging (raises : nat -> bool) (st' : db) (base : list price_row)
    (ss : list (list price_row))
  : nat -> list price_row -> list ScrapedRecord -> list price_row -> Prop :=
| staging_nil i sofar : staging raises st' base ss i sofar [] []
| staging_raise i sofar r rs out :
    raises i = true ->
    staging raises st' base ss (S i) sofar rs out ->
    staging raises st' base ss i sofar (r :: rs) out
| staging_dup i sofar r rs out cid mid :
    raises i = false -> rec_ids st' r cid mid ->
    row_exists (base ++ flushed_before ss sofar) cid mid (iso_format (price_date r)) = true ->
    staging raises st' base ss (S i) sofar rs out ->
    staging raises st' base ss i sofar (r :: rs) out
| staging_new i sofar r rs out cid mid :
    raises i = false -> rec_ids st' r cid mid ->
    row_exists (base ++ flushed_before ss sofar) cid mid (iso_format (price_date r)) = false ->
    staging raises st' base ss (S i) (sofar ++ [make_row cid mid r]) rs out ->
    staging raises st' base ss i sofar (r :: rs) (make_row cid mid r :: out).

(** ** [_initialize_categories] *)

Definition set_categories st l :=
  {| categories := l; counties := counties st; commodities := commodities st;
     markets := markets st; prices := prices st; next_id := next_id st;
     cache_counties := cache_counties st; cache_commodities := cache_commodities st;
     cache_markets := cache_markets st; log := log st |}.

Definition category_names : list text :=
  map t ["Grains"; "Vegetables"; "Fruits"; "Livestock"; "Fish"; "Other"]%string.

(** The [for cat_name in categories] loop: a name without a row (the
    [select ... eq('name', cat_name)] is empty) is inserted. *)
Fixpoint init_categories (names : list text) (st : db) : db :=
  match names with
  | [] => st
  | n :: ns =>
      init_categories ns
        (match find (fun r => text_eqb (snd r) n) (categories st) with
         | Some _ => st
         | None => bump_id (set_categories st (categories st ++ [(next_id st, n)]))
         end)
  end.

(** [DatabaseManager._initialize_categories] *)
Definition initialize_categories (st : db) : db := init_categories category_names st.

(** * Notions used by the further properties *)

(** The category a lower-cased product name belongs to: the first entry of
    [category_map] with a keyword occurring in it, else "Other". *)
Fixpoint first_category (name_lower : text) (m : list (text * list text)) : text :=
  match m with
  | [] => t "Other"
  | (cat, kws) :: m' =>
      if existsb (fun k => infixb k name_lower) kws then cat
      else first_category name_lower m'
  end.

(** Every cache entry names a row of its table: a county row with the
    cached name, a commodity row with the cached name, and a market row
    whose name and county's name, joined by "_", give the cached key. *)
Definition refs_ok (st : db) : Prop :=
  (forall n id, lookup n (cache_counties st) = Some id -> In (id, n) (counties st)) /\
  (forall n id, lookup n (cache_commodities st) = Some id ->
     exists cat, In (id, n, cat) (commodities st)) /\
  (forall k id, lookup k (cache_markets st) = Some id ->
     exists mn cid cn, In (id, mn, cid) (markets st) /\ In (cid, cn) (counties st) /\
                       k = mn ++ [95%N] ++ cn).

(** The nine column indices of a header mapping. *)
Definition mapped_columns (ix : idx_map) : list Z :=
  [ix_market ix; ix_county ix; ix_classification ix; ix_grade ix; ix_sex ix;
   ix_wholesale ix; ix_retail ix; ix_volume ix; ix_date ix].

(** A price table with five columns whose only row has three cells. *)
Definition short_row_table : table := {|
  thead := Some [[t "Market"]; [t "County"]; [t "Wholesale"]; [t "Retail"]; [t "Date"]];
  tbody := Some [[[t "Wakulima"]; [t "Nairobi"]; [t "40"]]] |}.

(** * Properties *)

(** ** Sample evaluations *)

Example sample_idx :
  make_idx_map (header_texts sample_headers) =
  {| ix_market := 0; ix_county := 1; ix_classification := -1; ix_grade := -1;
     ix_sex := -1; ix_wholesale := 2; ix_retail := 2; ix_volume := 4;
     ix_date := 5 |}%Z.
Proof. reflexivity. Qed.

Example parse_price_ksh :
  parse_price (t "Ksh 1,234.50") = Some (mkDecimal false 123450 2).
Proof. reflexivity. Qed.

Example parse_volume_kg : parse_volume (t "5,000 kg") = Some (mkDecimal false 5000 0).
Proof. reflexivity. Qed.

Example parse_date_dm : parse_date (mkDate 2026 10 15) (t " 01/02/2024 ") = mkDate 2024 2 1.
Proof. reflexivity. Qed.

Example parse_date_bad : parse_date (mkDate 2026 10 15) (t "31/02/2024") = mkDate 2026 10 15.
Proof. reflexivity. Qed.

Example resolve_samples :
  extract_county_from_market (t "Wakulima - Nairobi") = (t "Wakulima", t "Nairobi") /\
  extract_county_from_market (t "Kongowea (Mombasa)") = (t "Kongowea", t "Mombasa") /\
  extract_county_from_market (t "Unnamed Market") = (t "Unnamed Market", t "Unknown") /\
  extract_county_from_market en_dash_sample = (en_dash_sample, t "Unknown") /\
  extract_county_from_market (t "Market - ") = (t "Market", []).
Proof. repeat split; reflexivity. Qed.

Example two_maize_rows :
  List.length (prices (snd (insert_price_records accept_all
     [maize_record (Some (t "White")); maize_record (Some (t "Yellow"))] empty_db))) = 2.
Proof. vm_compute. reflexivity. Qed.

Example parse_date_md : parse_date (mkDate 2026 10 15) (t "12/25/2024") = mkDate 2024 12 25.
Proof. reflexivity. Qed.
Example parse_date_iso : parse_date (mkDate 2026 10 15) (t "2024-1-5") = mkDate 2024 1 5.
Proof. reflexivity. Qed.

(** ** Text equality *)

Lemma text_eqb_eq (a b : text) : text_eqb a b = true <-> a = b.
Proof.
  revert b; induction a as [|x a IH]; intros [|y b]; simpl;
    try (split; congruence).
  rewrite andb_true_iff, N.eqb_eq, IH. split.
  - intros [-> ->]; reflexivity.
  - intros H; inversion H; auto.
Qed.

Lemma text_eqb_refl (a : text) : text_eqb a a = true.
Proof. apply text_eqb_eq; reflexivity. Qed.

(** ** Header mapper *)

Lemma scan_headers_first (vs hs : list text) (i0 : Z) :
  (scan_headers vs i0 hs = None /\
   forall h, In h hs -> header_matches vs h = false) \/
  (exists i h, scan_headers vs i0 hs = Some (i0 + Z.of_nat i)%Z /\
     nth_error hs i = Some h /\ header_matches vs h = true /\
     forall j h', (j < i)%nat -> nth_error hs j = Some h' ->
                  header_matches vs h' = false).
Proof.
  revert i0; induction hs as [|h hs IH]; intros i0; simpl.
  - left; split; [reflexivity | contradiction].
  - destruct (header_matches vs h) eqn:Hh.
    + right; exists 0%nat, h; repeat split; auto.
      * f_equal; lia.
      * intros j h' Hj; lia.
    + destruct (IH (i0 + 1)%Z) as [[Hn Hall] | (i & h' & Hs & Hnth & Hm & Hbefore)].
      * left; split; [exact Hn|].
        intros x [<- | Hx]; auto.
      * right; exists (S i), h'; repeat split; auto.
        -- rewrite Hs; f_equal; lia.
        -- intros [|j] h'' Hj Hj'; simpl in Hj'.
           ++ inversion Hj'; subst; exact Hh.
           ++ apply (Hbefore j); auto; lia.
Qed.

(** For every field of [header_map] and every header list, the mapper
    returns the index of the first header containing one of the field's
    synonyms, or -1 when no header does. *)
Lemma find_column_index_first (hs : list text) (k : text) (vs : list text) :
  In (k, vs) header_map ->
  (find_column_index hs k = (-1)%Z /\
   forall h, In h hs -> header_matches vs h = false) \/
  (exists i h, find_column_index hs k = Z.of_nat i /\
     nth_error hs i = Some h /\ header_matches vs h = true /\
     forall j h', (j < i)%nat -> nth_error hs j = Some h' ->
                  header_matches vs h' = false).
Proof.
  intros Hin.
  assert (Hf : find_column_index hs k =
               match scan_headers vs 0%Z hs with Some i => i | None => (-1)%Z end).
  { unfold header_map in Hin; simpl in Hin.
    repeat (destruct Hin as [Hin | Hin]; [inversion Hin; subst; clear Hin;
              unfold find_column_index, header_map; simpl;
              destruct (scan_headers _ 0%Z hs); reflexivity |]).
    contradiction. }
  rewrite Hf.
  destruct (scan_headers_first vs hs 0%Z) as [[Hn Hall] | (i & h & Hs & Hnth & Hm & Hb)].
  - left; rewrite Hn; auto.
  - right; exists i, h; rewrite Hs; repeat split; auto.
Qed.

(** C1 (header mapping).  On the headers
    ["Market Name","County","Wholesale Price","Retail Price","Supply Volume",
    "Date"] the mapper resolves retail to column 2, the wholesale column:
    the retail synonym "price" is contained in "wholesale price", which comes
    first, although "retail price" sits at column 3.  Every other field
    resolves as stated (market 0, county 1, wholesale 2, volume 4, date 5,
    classification, grade and sex -1). *)
Theorem header_map_retail_reads_wholesale :
  let hs := header_texts sample_headers in
  nth_error hs 2 = Some (t "wholesale price") /\
  nth_error hs 3 = Some (t "retail price") /\
  make_idx_map hs =
  {| ix_market := 0; ix_county := 1; ix_classification := -1; ix_grade := -1;
     ix_sex := -1; ix_wholesale := 2; ix_retail := 2; ix_volume := 4;
     ix_date := 5 |}%Z /\
  ix_retail (make_idx_map hs) <> 3%Z.
Proof. vm_compute. repeat split; discriminate. Qed.

(** ** Price parsing *)

Lemma frac_part_spec (s : text) (coef : N) (ndig k : nat) (d : decimal) :
  frac_part s coef ndig k = Some d <->
  forallb is_digit s = true /\ ndig + List.length s <> 0 /\
  d = mkDecimal false (fold_left push_digit s coef) (k + List.length s).
Proof.
  revert coef ndig k; induction s as [|c s IH]; intros coef ndig k; simpl.
  - destruct (Nat.eqb_spec ndig 0) as [->|Hn]; split.
    + discriminate.
    + intros (_ & H & _); lia.
    + intros H; inversion H; subst; repeat split; auto; try lia;
        rewrite Nat.add_0_r; reflexivity.
    + intros (_ & _ & ->); rewrite Nat.add_0_r; reflexivity.
  - destruct (is_digit c) eqn:Hc; simpl.
    + rewrite IH; split.
      * intros (H1 & H2 & ->); repeat split; auto; try lia;
          f_equal; lia.
      * intros (H1 & H2 & ->);
          repeat split; auto; try lia; f_equal; lia.
    + split; [discriminate | intros (H & _); discriminate].
Qed.

Lemma digit_not_point (c : N) : is_digit c = true -> N.eqb c dot = false.
Proof.
  unfold is_digit, dot; intros H; apply andb_true_iff in H as [H1 H2].
  apply N.leb_le in H1; apply N.leb_le in H2; apply N.eqb_neq; lia.
Qed.

Lemma int_part_spec (s : text) (coef : N) (ndig : nat) (d : decimal) :
  int_part s coef ndig = Some d <->
  exists (l r : text) (b : bool),
    forallb is_digit l = true /\ forallb is_digit r = true /\
    s = l ++ (if b then [dot] else []) ++ r /\ (b = false -> r = []) /\
    ndig + List.length l + List.length r <> 0 /\
    d = mkDecimal false (fold_left push_digit (l ++ r) coef) (List.length r).
Proof.
  revert coef ndig; induction s as [|c s IH]; intros coef ndig; simpl.
  - split.
    + destruct (Nat.eqb_spec ndig 0) as [->|Hn]; [discriminate|].
      intros H; inversion H; subst.
      exists [], [], false; simpl; repeat split; auto; lia.
    + intros (l & r & b & _ & _ & Hs & Hb & Hn & ->).
      destruct l; [|discriminate]. destruct b; [discriminate|].
      rewrite (Hb eq_refl) in *; simpl in *.
      destruct (Nat.eqb_spec ndig 0); [lia | reflexivity].
  - destruct (is_digit c) eqn:Hc.
    + rewrite IH; split.
      * intros (l & r & b & H1 & H2 & Hs & Hb & Hn & ->).
        exists (c :: l), r, b; simpl; rewrite Hc, H1; subst s;
          repeat split; auto; lia.
      * intros (l & r & b & H1 & H2 & Hs & Hb & Hn & ->).
        destruct l as [|x l].
        -- destruct b; simpl in Hs.
           ++ inversion Hs; subst; vm_compute in Hc; discriminate.
           ++ rewrite (Hb eq_refl) in Hs; discriminate.
        -- simpl in Hs; inversion Hs; subst x s. simpl in H1.
           apply andb_true_iff in H1 as [_ H1].
           exists l, r, b; repeat split; auto; simpl in Hn; lia.
    + destruct (N.eqb_spec c dot) as [Hd|Hd].
      * rewrite frac_part_spec; split.
        -- intros (H1 & H2 & ->).
           exists [], s, true; simpl; subst c; repeat split; auto; try lia;
             intros Hf; discriminate Hf.
        -- intros (l & r & b & H1 & H2 & Hs & Hb & Hn & ->).
           destruct l as [|x l].
           ++ destruct b; simpl in Hs.
              ** inversion Hs; subst. simpl in Hn. repeat split; auto; lia.
              ** rewrite (Hb eq_refl) in Hs; discriminate.
           ++ simpl in Hs; inversion Hs; subst x. simpl in H1. rewrite Hc in H1.
              discriminate.
      * split; [discriminate|].
        intros (l & r & b & H1 & H2 & Hs & Hb & Hn & _).
        destruct l as [|x l].
        -- destruct b; simpl in Hs.
           ++ inversion Hs; subst. contradiction.
           ++ rewrite (Hb eq_refl) in Hs; discriminate.
        -- simpl in Hs; inversion Hs; subst x. simpl in H1. rewrite Hc in H1.
           discriminate.
Qed.

Lemma absent_marker_spec (v : text) :
  absent_marker v = true <-> In v [t ""; t "-"; t "N/A"].
Proof.
  unfold absent_marker, memb; destruct v as [|c v].
  - split; intros _; [left; reflexivity | reflexivity].
  - cbn [existsb]. rewrite orb_false_r, !orb_true_iff, !text_eqb_eq.
    cbn [In]. intuition congruence.
Qed.

Lemma app_nil_len (l r : text) : l ++ r <> [] <-> List.length l + List.length r <> 0.
Proof.
  destruct l, r; simpl; split; intros H; try congruence; try lia; discriminate.
Qed.

(** C4 (price parsing).  [parse_price] is absent on "", "-" and "N/A"; on
    any other text it keeps the digits and decimal points and reads what
    remains as a decimal numeral (digits, an optional point, digits, at
    least one digit), absent when the remainder is empty or no such
    numeral.  In particular "Ksh 1,234.50" gives 1234.50, and "-" and ""
    give absent.  The parser is a total function. *)
Theorem parse_price_spec :
  (forall v, In v [t ""; t "-"; t "N/A"] -> parse_price v = None) /\
  (forall v d, ~ In v [t ""; t "-"; t "N/A"] ->
     (parse_price v = Some d <->
      exists l r b, numeral (clean_price v) l r b /\
        d = mkDecimal false (digits_val (l ++ r)) (List.length r))) /\
  parse_price (t "Ksh 1,234.50") = Some (mkDecimal false 123450 2) /\
  parse_price (t "-") = None /\ parse_price (t "") = None.
Proof.
  split; [|split; [|repeat split; reflexivity]].
  - intros v Hv; unfold parse_price; apply absent_marker_spec in Hv; rewrite Hv;
      reflexivity.
  - intros v d Hv.
    assert (Ha : absent_marker v = false).
    { destruct (absent_marker v) eqn:E; auto. apply absent_marker_spec in E.
      contradiction. }
    unfold parse_price; rewrite Ha.
    destruct (clean_price v) as [|c cs] eqn:Hc.
    + split; [discriminate|].
      intros (l & r & b & (_ & _ & Hne & Heq & Hb) & _).
      destruct l; [|discriminate]. destruct b; [discriminate|].
      rewrite (Hb eq_refl) in Hne; contradiction.
    + unfold decimal_of_text; rewrite int_part_spec. split.
      * intros (l & r & b & H1 & H2 & Hs & Hb & Hn & ->).
        exists l, r, b; split; [|reflexivity].
        repeat split; auto. apply app_nil_len; lia.
      * intros (l & r & b & (H1 & H2 & Hne & Hs & Hb) & ->).
        exists l, r, b; repeat split; auto.
        apply app_nil_len in Hne; lia.
Qed.

Lemma parse_price_spec_witness :
  ~ In (t "Ksh 1,234.50") [t ""; t "-"; t "N/A"] /\
  parse_price (t "Ksh 1,234.50") = Some (mkDecimal false 123450 2).
Proof.
  assert (Hn : ~ In (t "Ksh 1,234.50") [t ""; t "-"; t "N/A"])
    by (simpl; intuition discriminate).
  split; [exact Hn|].
  apply (proj2 (proj1 (proj2 parse_price_spec) _ _ Hn)).
  exists (t "1234"), (t "50"), true; split; [|reflexivity].
  repeat split; try reflexivity; discriminate.
Defined.

(** ** Date parsing *)

Lemma try_formats_first (fs : list text) (s : text) (d : date) :
  try_formats fs s = Some d ->
  exists i f, nth_error fs i = Some f /\ strptime f s = Some d /\
    forall j f', (j < i)%nat -> nth_error fs j = Some f' -> strptime f' s = None.
Proof.
  induction fs as [|f fs IH]; simpl; [discriminate|].
  destruct (strptime f s) as [d'|] eqn:Hf.
  - intros H; inversion H; subst. exists 0%nat, f; repeat split; auto.
    intros j f' Hj; lia.
  - intros H; destruct (IH H) as (i & f' & Hi & Hs & Hb).
    exists (S i), f'; repeat split; auto.
    intros [|j] f'' Hj Hn; simpl in Hn.
    + inversion Hn; subst; exact Hf.
    + apply (Hb j); auto; lia.
Qed.

Lemma try_formats_none (fs : list text) (s : text) :
  try_formats fs s = None <-> forall f, In f fs -> strptime f s = None.
Proof.
  induction fs as [|f fs IH]; simpl.
  - split; [contradiction | reflexivity].
  - destruct (strptime f s) eqn:Hf; split.
    + discriminate.
    + intros H; rewrite H in Hf; [discriminate | left; reflexivity].
    + intros H f' [<- | Hin]; auto. apply IH; auto.
    + intros H; apply IH; auto.
Qed.

Lemma strptime_valid (f s : text) (d : date) :
  strptime f s = Some d -> valid_date d = true.
Proof.
  unfold strptime.
  destruct (match_format _ _ s) as [|[[[y m] dd] rest] _]; [discriminate|].
  destruct rest; [|discriminate].
  match goal with |- (if valid_date ?x then _ else _) = _ -> _ =>
    destruct (valid_date x) eqn:Hv end; [|discriminate].
  intros H; inversion H; subst; exact Hv.
Qed.

(** C5 (date parsing).  [parse_date] tries "%Y-%m-%d", "%d/%m/%Y",
    "%d-%m-%Y", "%m/%d/%Y" in this order on the stripped text: the first
    format that parses gives the date; when none parses the current date is
    returned.  It is a total function to dates, and returns a valid
    calendar date whenever the current date is one. *)
Theorem parse_date_spec (today : date) (v : text) :
  date_formats = [t "%Y-%m-%d"; t "%d/%m/%Y"; t "%d-%m-%Y"; t "%m/%d/%Y"] /\
  (forall i f d, nth_error date_formats i = Some f ->
     strptime f (strip v) = Some d ->
     (forall j f', (j < i)%nat -> nth_error date_formats j = Some f' ->
                   strptime f' (strip v) = None) ->
     parse_date today v = d) /\
  ((forall f, In f date_formats -> strptime f (strip v) = None) ->
     parse_date today v = today) /\
  (valid_date today = true -> valid_date (parse_date today v) = true).
Proof.
  split; [reflexivity|]. unfold parse_date. split; [|split].
  - intros i f d Hi Hf Hb.
    destruct (try_formats date_formats (strip v)) as [d'|] eqn:Ht.
    + destruct (try_formats_first _ _ _ Ht) as (i' & f' & Hi' & Hf' & Hb').
      destruct (Nat.lt_trichotomy i i') as [Hlt | [-> | Hgt]].
      * rewrite (Hb' i f Hlt Hi) in Hf; discriminate.
      * rewrite Hi in Hi'; inversion Hi'; subst; congruence.
      * rewrite (Hb i' f' Hgt Hi') in Hf'; discriminate.
    + apply try_formats_none with (f := f) in Ht.
      * congruence.
      * eapply nth_error_In; eauto.
  - intros H; apply try_formats_none in H; rewrite H; reflexivity.
  - intros Hv. destruct (try_formats date_formats (strip v)) as [d|] eqn:Ht; auto.
    destruct (try_formats_first _ _ _ Ht) as (i & f & _ & Hf & _).
    eapply strptime_valid; eauto.
Qed.

Lemma parse_date_spec_witness :
  parse_date (mkDate 2026 10 15) (t "12/25/2024") = mkDate 2024 12 25.
Proof.
  apply (proj1 (proj2 (parse_date_spec (mkDate 2026 10 15) (t "12/25/2024")))
           3 (t "%m/%d/%Y")).
  - reflexivity.
  - vm_compute; reflexivity.
  - intros [|[|[|j]]] f' Hj Hn; simpl in Hn; inversion Hn; subst;
      try (vm_compute; reflexivity); lia.
Defined.

(** ** Market/county resolver *)

(** C6 (market/county resolution).  The three sample inputs resolve as
    stated, but the en-dash form is not split: the dash class of the first
    pattern holds '-', 'â', '€' and '“' (the UTF-8 bytes of '–' read as
    cp1252), not '–', so "Wakulima – Nairobi" falls through every pattern
    and comes back whole, with county "Unknown". *)
Theorem resolver_en_dash_unsplit :
  extract_county_from_market (t "Wakulima - Nairobi") = (t "Wakulima", t "Nairobi") /\
  extract_county_from_market (t "Kongowea (Mombasa)") = (t "Kongowea", t "Mombasa") /\
  extract_county_from_market (t "Unnamed Market") = (t "Unnamed Market", t "Unknown") /\
  dash_class 8211 = false /\
  extract_county_from_market en_dash_sample = (en_dash_sample, t "Unknown") /\
  extract_county_from_market en_dash_sample <> (t "Wakulima", t "Nairobi").
Proof. vm_compute. repeat split; discriminate. Qed.

(** ** Table extractor *)

Ltac split_results H :=
  repeat match type of H with
  | context [match ?m with Ok _ => _ | Err _ => _ end] =>
      let E := fresh "E" in destruct m eqn:E; simpl in H; [|discriminate H]
  end.

Lemma scrape_rows_in (today : date) (ix : idx_map) (product : text)
    (rows : list (list cell)) (rs : list ScrapedRecord) (r : ScrapedRecord) :
  scrape_rows today ix product rows = Ok rs -> In r rs ->
  exists cells, In cells rows /\ 3 <= List.length cells /\
                scrape_row today ix product cells = Ok r.
Proof.
  revert rs; induction rows as [|cells rows IH]; intros rs H Hin; simpl in H.
  - inversion H; subst; contradiction.
  - destruct (Nat.ltb_spec (List.length cells) 3) as [Hlt|Hge].
    + destruct (IH rs H Hin) as (c & Hc & Hl & Hr).
      exists c; split; [right; exact Hc | auto].
    + unfold bind in H; split_results H. inversion H; subst rs.
      destruct Hin as [<- | Hin].
      * exists cells; split; [left; reflexivity | auto].
      * destruct (IH _ ltac:(first [exact E0 | reflexivity]) Hin) as (c & Hc & Hl & Hr).
        exists c; split; [right; exact Hc | auto].
Qed.

Lemma scrape_row_county (today : date) (ix : idx_map) (product : text)
    (cells : list cell) (r : ScrapedRecord) :
  scrape_row today ix product cells = Ok r ->
  product_name r = product /\
  exists c, row_county ix cells = Ok c /\ county_name r = or_unknown c.
Proof.
  unfold scrape_row, row_county, bind; intros H.
  destruct (opt_cell cells (ix_market ix) []) as [mt|e] eqn:Hm; [|discriminate].
  destruct (0 <=? ix_county ix)%Z.
  - destruct (cell_text cells (ix_county ix)) as [c|e]; [|discriminate].
    split_results H. inversion H; subst; simpl. split; [reflexivity|].
    exists c; split; reflexivity.
  - split_results H. inversion H; subst; simpl. split; [reflexivity|].
    exists (snd (extract_county_from_market mt)); split; reflexivity.
Qed.

Lemma scrape_row_market (today : date) (ix : idx_map) (product : text)
    (cells : list cell) (r : ScrapedRecord) :
  scrape_row today ix product cells = Ok r ->
  exists m, row_market ix cells = Ok m /\ market_name r = m.
Proof.
  unfold scrape_row, row_market, bind; intros H.
  destruct (opt_cell cells (ix_market ix) []) as [mt|e] eqn:Hm; [|discriminate].
  destruct (0 <=? ix_county ix)%Z.
  - destruct (cell_text cells (ix_county ix)) as [c|e]; [|discriminate].
    split_results H. inversion H; subst; simpl. eexists; split; reflexivity.
  - split_results H. inversion H; subst; simpl. eexists; split; reflexivity.
Qed.

Lemma or_unknown_nonempty (c : text) : or_unknown c <> [].
Proof. destruct c; discriminate. Qed.

(** C9 (extracted records), as the code has it.  Every record the table
    extractor emits carries the product's name and a non-empty county: the
    county cell when a county column is mapped, else the county the
    resolver finds in the market cell, replaced by "Unknown" when that is
    empty.  The market name is the market cell text as it stands, or the
    market part the resolver leaves of it when no county column is mapped
    ([row_market]); it may be empty. *)
Theorem scrape_product_county_known (today : date)
    (fetch_page : nat -> result (option table)) (pid : nat) (product : text)
    (r : ScrapedRecord) :
  In r (scrape_product today fetch_page pid product) ->
  product_name r = product /\ county_name r <> [] /\
  exists tb rows cells c,
    fetch_page pid = Ok (Some tb) /\ tbody tb = Some rows /\ In cells rows /\
    3 <= List.length cells /\
    row_county (make_idx_map (table_headers tb)) cells = Ok c /\
    county_name r = (match c with [] => t "Unknown" | _ => c end) /\
    exists m, row_market (make_idx_map (table_headers tb)) cells = Ok m /\
      market_name r = m.
Proof.
  unfold scrape_product, bind.
  destruct (fetch_page pid) as [page|e] eqn:Hf; [|contradiction].
  destruct page as [tb|]; simpl; [|contradiction].
  destruct (tbody tb) as [rows|] eqn:Hb; [|contradiction].
  destruct (scrape_rows today (make_idx_map (table_headers tb)) product rows)
    as [rs|e] eqn:Hr; [|contradiction].
  intros Hin.
  destruct (scrape_rows_in _ _ _ _ _ _ Hr Hin) as (cells & Hc & Hl & Hrow).
  destruct (scrape_row_county _ _ _ _ _ Hrow) as (Hp & c & Hrc & Hcn).
  split; [exact Hp|]. split; [rewrite Hcn; apply or_unknown_nonempty|].
  exists tb, rows, cells, c; repeat split; auto.
  apply (scrape_row_market _ _ _ _ _ Hrow).
Qed.

(** A product page whose table has a blank market cell. *)
Lemma scrape_product_county_known_witness :
  let page := fun (_ : nat) => Ok (Some {|
      thead := Some [[t "Market"]; [t "County"]; [t "Retail Price"]; [t "Date"]];
      tbody := Some [[[]; [t "Nairobi"]; [t "50"]; [t "2024-01-15"]]] |}) in
  exists r, In r (scrape_product (mkDate 2026 10 15) page 1 (t "Dry Maize")) /\
    product_name r = t "Dry Maize" /\ county_name r <> [].
Proof.
  intros page.
  remember (scrape_product (mkDate 2026 10 15) page 1 (t "Dry Maize")) as l eqn:El.
  destruct l as [|r0 l']; [vm_compute in El; discriminate El|].
  assert (Hin : In r0 (scrape_product (mkDate 2026 10 15) page 1 (t "Dry Maize")))
    by (rewrite <- El; left; reflexivity).
  exists r0; split; [left; reflexivity|].
  destruct (scrape_product_county_known _ _ _ _ _ Hin) as (H1 & H2 & _).
  split; assumption.
Defined.

(** C9 as stated fails: the same page yields a record whose market name is
    empty. *)
Lemma scrape_product_empty_market :
  let page := fun (_ : nat) => Ok (Some {|
      thead := Some [[t "Market"]; [t "County"]; [t "Retail Price"]; [t "Date"]];
      tbody := Some [[[]; [t "Nairobi"]; [t "50"]; [t "2024-01-15"]]] |}) in
  exists r, In r (scrape_product (mkDate 2026 10 15) page 1 (t "Dry Maize")) /\
    market_name r = [].
Proof. intros page. eexists; split; [vm_compute; left; reflexivity | reflexivity]. Qed.

(** ** Staged rows *)

(** C10 (zero stored as null).  In the row staged for a record, each of
    the wholesale price, retail price and supply volume columns is null
    exactly when the record's value is absent or equal to zero, and is the
    float of the value otherwise; a parsed "0.00" is thus stored like an
    unparseable price. *)
Theorem make_row_zero_is_null (cid mid : nat) (r : ScrapedRecord) :
  (forall (sel : ScrapedRecord -> option decimal) (col : price_row -> option pyfloat),
     In (sel, col) [(wholesale_price, pr_wholesale_price);
                    (retail_price, pr_retail_price);
                    (supply_volume, pr_supply_volume)] ->
     (col (make_row cid mid r) = None <->
        sel r = None \/ exists d, sel r = Some d /\ dec_coef d = 0%N) /\
     (forall d, sel r = Some d -> dec_coef d <> 0%N ->
        col (make_row cid mid r) = Some (py_float d))) /\
  parse_price (t "0.00") = Some (mkDecimal false 0 2) /\
  pr_retail_price (make_row cid mid
    {| product_name := product_name r; market_name := market_name r;
       county_name := county_name r; classification := classification r;
       grade := grade r; sex := sex r; wholesale_price := wholesale_price r;
       retail_price := parse_price (t "0.00"); supply_volume := supply_volume r;
       price_date := price_date r |}) = None.
Proof.
  split; [|split; reflexivity].
  intros sel col Hin.
  assert (Hcol : col (make_row cid mid r) = to_float (sel r)).
  { simpl in Hin; destruct Hin as [H|[H|[H|[]]]]; inversion H; reflexivity. }
  rewrite Hcol; unfold to_float, dec_truthy.
  destruct (sel r) as [d|].
  - destruct (N.eqb_spec (dec_coef d) 0) as [Hz|Hz]; simpl; split.
    + split; [intros _; right; exists d; auto | reflexivity].
    + intros d' Hd; inversion Hd; subst; contradiction.
    + split; [discriminate|]. intros [H|(d' & Hd & Hz')]; [discriminate|].
      inversion Hd; subst; contradiction.
    + intros d' Hd _; inversion Hd; reflexivity.
  - split; [split; auto|]. intros d Hd; discriminate.
Qed.

Lemma make_row_zero_is_null_witness :
  pr_wholesale_price (make_row 1 2 (maize_record None)) =
    Some (py_float (mkDecimal false 5000 0)).
Proof.
  apply (proj2 (proj1 (make_row_zero_is_null 1 2 (maize_record None))
                  wholesale_price pr_wholesale_price ltac:(left; reflexivity))).
  - reflexivity.
  - discriminate.
Defined.

(** ** Deduplication *)

(** C2 (deduplication key).  Two scraped records with the same product,
    market, county and date (here differing only in classification),
    ingested in one call into a store holding no price row, both pass the
    existence check, since it looks at the store and not at the rows
    already staged, and both are inserted: two persisted rows share the
    (commodity, market, date) triple. *)
Theorem dedup_misses_staged_rows :
  prices empty_db = [] /\
  exists p1 p2,
    prices (snd (insert_price_records accept_all
       [maize_record (Some (t "White")); maize_record (Some (t "Yellow"))] empty_db))
      = [p1; p2] /\
    pr_commodity_id p1 = pr_commodity_id p2 /\
    pr_market_id p1 = pr_market_id p2 /\
    pr_record_date p1 = pr_record_date p2.
Proof.
  split; [reflexivity|].
  vm_compute. do 2 eexists; split; [reflexivity|]. repeat split.
Qed.

(** ** Reference cache *)

Lemma fresh_ext_refl {R K} (key : R -> K) (l : list R) : fresh_ext key l l.
Proof.
  exists []; rewrite app_nil_r; split; [reflexivity | split; [constructor | intros r []]].
Qed.

Lemma fresh_ext_trans {R K} (key : R -> K) (l1 l2 l3 : list R) :
  fresh_ext key l1 l2 -> fresh_ext key l2 l3 -> fresh_ext key l1 l3.
Proof.
  intros (a1 & -> & Hn1 & Hf1) (a2 & -> & Hn2 & Hf2).
  exists (a1 ++ a2); rewrite app_assoc; repeat split.
  - rewrite map_app; apply NoDup_app; auto.
    intros k Hk Hk2. apply in_map_iff in Hk2 as (r & <- & Hr).
    apply (Hf2 r Hr); rewrite map_app; apply in_or_app; right; exact Hk.
  - intros r Hr Hin. apply in_app_or in Hr as [Hr|Hr].
    + exact (Hf1 r Hr Hin).
    + apply (Hf2 r Hr); rewrite map_app; apply in_or_app; left; exact Hin.
Qed.

Lemma fresh_ext_snoc {R K} (key : R -> K) (l : list R) (r : R) :
  ~ In (key r) (map key l) -> fresh_ext key l (l ++ [r]).
Proof.
  intros H; exists [r]; repeat split.
  - simpl; constructor; [intros [] | constructor].
  - intros r' [<- | []]; exact H.
Qed.

Lemma find_none_not_in {R K} (key : R -> K) (eqb : K -> K -> bool)
    (Heqb : forall a b, eqb a b = true <-> a = b) (l : list R) (k : K) :
  find (fun r => eqb (key r) k) l = None -> ~ In k (map key l).
Proof.
  intros H Hin. apply in_map_iff in Hin as (r & Hk & Hr).
  pose proof (find_none _ _ H r Hr) as Hf; simpl in Hf.
  rewrite <- Hk in Hf. assert (eqb (key r) (key r) = true) by (apply Heqb; auto).
  congruence.
Qed.

Lemma lookup_filter_other (k k' : text) (d : list (text * nat)) :
  text_eqb k' k = false ->
  lookup k' (filter (fun p => negb (text_eqb k (fst p))) d) = lookup k' d.
Proof.
  intros Hk; induction d as [|[a v] d IH]; simpl; auto.
  destruct (text_eqb k a) eqn:Ha; simpl.
  - apply text_eqb_eq in Ha; subst a. rewrite Hk; exact IH.
  - destruct (text_eqb k' a); auto.
Qed.

Lemma lookup_dict_set_same (k : text) (v : nat) (d : list (text * nat)) :
  lookup k (dict_set k v d) = Some v.
Proof. unfold dict_set; simpl; rewrite text_eqb_refl; reflexivity. Qed.

Lemma cache_grows_dict_set (k : text) (v : nat) (d : list (text * nat)) :
  lookup k d = None -> cache_grows d (dict_set k v d).
Proof.
  intros Hk k' v' Hk'. unfold dict_set; simpl.
  destruct (text_eqb k' k) eqn:E.
  - apply text_eqb_eq in E; subst; congruence.
  - rewrite lookup_filter_other; auto.
Qed.

Lemma cache_grows_refl (c : list (text * nat)) : cache_grows c c.
Proof. intros k v H; exact H. Qed.

Lemma cache_grows_trans (c1 c2 c3 : list (text * nat)) :
  cache_grows c1 c2 -> cache_grows c2 c3 -> cache_grows c1 c3.
Proof. intros H1 H2 k v H; auto. Qed.

Lemma grows_refl (st : db) : grows st st.
Proof.
  repeat split; try apply cache_grows_refl; apply fresh_ext_refl.
Qed.

Lemma grows_trans (st1 st2 st3 : db) : grows st1 st2 -> grows st2 st3 -> grows st1 st3.
Proof.
  intros (a1 & b1 & c1 & d1 & e1 & f1 & g1) (a2 & b2 & c2 & d2 & e2 & f2 & g2).
  repeat split; try (eapply cache_grows_trans; eauto);
    try (eapply fresh_ext_trans; eauto); congruence.
Qed.

Create HintDb grows.
#[local] Hint Resolve grows_refl cache_grows_refl fresh_ext_refl : grows.

Lemma grows_set_caches_county (st : db) (k : text) (v : nat) :
  lookup k (cache_counties st) = None ->
  grows st (set_caches st (dict_set k v (cache_counties st))
                      (cache_commodities st) (cache_markets st)).
Proof.
  intros H; repeat split; simpl; auto with grows; apply cache_grows_dict_set; auto.
Qed.

Lemma grows_set_caches_commodity (st : db) (k : text) (v : nat) :
  lookup k (cache_commodities st) = None ->
  grows st (set_caches st (cache_counties st)
                      (dict_set k v (cache_commodities st)) (cache_markets st)).
Proof.
  intros H; repeat split; simpl; auto with grows; apply cache_grows_dict_set; auto.
Qed.

Lemma grows_set_caches_market (st : db) (k : text) (v : nat) :
  lookup k (cache_markets st) = None ->
  grows st (set_caches st (cache_counties st) (cache_commodities st)
                      (dict_set k v (cache_markets st))).
Proof.
  intros H; repeat split; simpl; auto with grows; apply cache_grows_dict_set; auto.
Qed.

Lemma pair_eqb_eq (p q : text * nat) :
  (text_eqb (fst p) (fst q) && Nat.eqb (snd p) (snd q)) = true <-> p = q.
Proof.
  destruct p as [a i], q as [b j]; simpl.
  rewrite andb_true_iff, text_eqb_eq, Nat.eqb_eq; split.
  - intros [-> ->]; reflexivity.
  - intros H; inversion H; auto.
Qed.

Lemma county_step (n : text) (st st' : db) (x : nat) :
  get_or_create_county n st = (x, st') ->
  grows st st' /\ lookup (normalize n) (cache_counties st') = Some x /\
  (forall v, lookup (normalize n) (cache_counties st) = Some v -> x = v) /\
  cache_commodities st' = cache_commodities st /\ cache_markets st' = cache_markets st.
Proof.
  unfold get_or_create_county.
  destruct (lookup (normalize n) (cache_counties st)) as [v|] eqn:Hl.
  - intros H; inversion H; subst. repeat split; auto with grows. congruence.
  - destruct (find (fun r => text_eqb (snd r) (normalize n)) (counties st))
      as [[id nm]|] eqn:Hf; intros H; inversion H; subst; clear H.
    + split; [apply grows_set_caches_county; exact Hl|].
      split; [apply lookup_dict_set_same|].
      split; [intros v Hv; congruence | split; reflexivity].
    + split; [|split; [apply lookup_dict_set_same|]];
        [| split; [intros v Hv; congruence | split; reflexivity]].
      eapply grows_trans with (st2 := bump_id (set_counties st (counties st ++ [(next_id st, normalize n)]))).
      * repeat split; simpl; auto with grows.
        apply fresh_ext_snoc.
        exact (find_none_not_in county_key text_eqb text_eqb_eq _ _ Hf).
      * exact (grows_set_caches_county
                 (bump_id (set_counties st (counties st ++ [(next_id st, normalize n)]))) _ _ Hl).
Qed.

Lemma commodity_step (n : text) (st st' : db) (x : nat) :
  get_or_create_commodity n st = (x, st') ->
  grows st st' /\ lookup (normalize n) (cache_commodities st') = Some x /\
  (forall v, lookup (normalize n) (cache_commodities st) = Some v -> x = v).
Proof.
  unfold get_or_create_commodity.
  destruct (lookup (normalize n) (cache_commodities st)) as [v|] eqn:Hl.
  - intros H; inversion H; subst. repeat split; auto with grows. congruence.
  - destruct (find (fun r => text_eqb (snd (fst r)) (normalize n)) (commodities st))
      as [[[id nm] cat]|] eqn:Hf; intros H; inversion H; subst; clear H.
    + split; [apply grows_set_caches_commodity; exact Hl|].
      split; [apply lookup_dict_set_same | intros v Hv; congruence].
    + split; [|split; [apply lookup_dict_set_same | intros v Hv; congruence]].
      set (st1 := bump_id (set_commodities st (commodities st ++
                   [(next_id st, normalize n, categorize_product (normalize n) st)]))).
      apply grows_trans with (st2 := st1).
      * repeat split; simpl; auto with grows.
        apply fresh_ext_snoc.
        exact (find_none_not_in commodity_key text_eqb text_eqb_eq _ _ Hf).
      * exact (grows_set_caches_commodity st1 _ _ Hl).
Qed.

Lemma market_step (m c : text) (st st' : db) (x : nat) :
  get_or_create_market m c st = (x, st') ->
  grows st st' /\ lookup (market_key m c) (cache_markets st') = Some x /\
  (forall v, lookup (market_key m c) (cache_markets st) = Some v -> x = v).
Proof.
  unfold get_or_create_market.
  destruct (lookup (market_key m c) (cache_markets st)) as [v|] eqn:Hl.
  - intros H; inversion H; subst. repeat split; auto with grows. congruence.
  - destruct (get_or_create_county c st) as [cid st1] eqn:Hc.
    destruct (county_step _ _ _ _ Hc) as (G1 & _ & _ & _ & Hm1).
    rewrite <- Hm1 in Hl.
    destruct (find (fun r => text_eqb (snd (fst r)) (normalize m) && Nat.eqb (snd r) cid)
                (markets st1)) as [[[id nm] cc]|] eqn:Hf;
      intros H; inversion H; subst; clear H.
    + split; [eapply grows_trans; [exact G1 | apply grows_set_caches_market; exact Hl]|].
      split; [apply lookup_dict_set_same | intros v Hv; congruence].
    + split; [|split; [apply lookup_dict_set_same | intros v Hv; congruence]].
      set (st2 := bump_id (set_markets st1 (markets st1 ++ [(next_id st1, normalize m, cid)]))).
      apply grows_trans with (st2 := st1); [exact G1|].
      apply grows_trans with (st2 := st2).
      * repeat split; simpl; auto with grows.
        apply fresh_ext_snoc.
        exact (find_none_not_in market_row_key _ pair_eqb_eq _ (normalize m, cid) Hf).
      * exact (grows_set_caches_market st2 _ _ Hl).
Qed.

Lemma grows_set_prices (st : db) (l : list price_row) (ev : list event) :
  grows st (set_prices st l ev).
Proof. repeat split; simpl; auto with grows. Qed.

Lemma insert_each_grows acc (b : list price_row) (n : nat) (st : db) :
  grows st (snd (insert_each acc b n st)).
Proof.
  revert n st; induction b as [|r b IH]; intros n st; simpl; auto with grows.
  destruct (acc (prices st) [r]);
    (eapply grows_trans; [apply grows_set_prices | apply IH]).
Qed.

Lemma execute_batch_insert_grows acc (b : list price_row) (st : db) :
  grows st (snd (execute_batch_insert acc b st)).
Proof.
  unfold execute_batch_insert. destruct (acc (prices st) b).
  - apply grows_set_prices.
  - eapply grows_trans; [apply grows_set_prices | apply insert_each_grows].
Qed.

Lemma ipr_loop_grows acc (recs : list ScrapedRecord) (count : nat)
    (batch : list price_row) (st : db) :
  grows st (snd (ipr_loop acc recs count batch st)).
Proof.
  revert count batch st; induction recs as [|r recs IH]; intros count batch st;
    cbn [ipr_loop]; auto with grows.
  destruct (get_or_create_commodity (product_name r) st) as [cid st1] eqn:H1.
  destruct (get_or_create_market (market_name r) (county_name r) st1) as [mid st2] eqn:H2.
  apply commodity_step in H1 as (G1 & _). apply market_step in H2 as (G2 & _).
  apply grows_trans with st1; [exact G1|]. apply grows_trans with st2; [exact G2|].
  destruct (row_exists (prices st2) cid mid (iso_format (price_date r))); [apply IH|].
  destruct (Nat.leb BATCH_SIZE (List.length (batch ++ [make_row cid mid r]))); [|apply IH].
  destruct (execute_batch_insert acc (batch ++ [make_row cid mid r]) st2) as [n st3] eqn:H3.
  apply grows_trans with st3; [|apply IH].
  pose proof (execute_batch_insert_grows acc (batch ++ [make_row cid mid r]) st2) as G3.
  rewrite H3 in G3; exact G3.
Qed.

Lemma insert_price_records_grows acc (recs : list ScrapedRecord) (st : db) :
  grows st (snd (insert_price_records acc recs st)).
Proof.
  unfold insert_price_records. destruct recs as [|r rs]; [apply grows_refl|].
  pose proof (ipr_loop_grows acc (r :: rs) 0 [] st) as G.
  destruct (ipr_loop acc (r :: rs) 0 [] st) as [[count batch] st1].
  destruct batch as [|p ps]; [exact G|].
  pose proof (execute_batch_insert_grows acc (p :: ps) st1) as G2.
  destruct (execute_batch_insert acc (p :: ps) st1) as [n st2].
  eapply grows_trans; eauto.
Qed.

Lemma exec_call_grows (c : ref_call) (st : db) : grows st (snd (exec_call c st)).
Proof.
  destruct c as [n|n|m cn|acc rs]; simpl.
  - destruct (get_or_create_county n st) eqn:H; apply county_step in H; apply H.
  - destruct (get_or_create_commodity n st) eqn:H; apply commodity_step in H; apply H.
  - destruct (get_or_create_market m cn st) eqn:H; apply market_step in H; apply H.
  - apply insert_price_records_grows.
Qed.

Lemma exec_calls_grows (cs : list ref_call) (st : db) : grows st (snd (exec_calls cs st)).
Proof.
  revert st; induction cs as [|c cs IH]; intros st; simpl; auto with grows.
  pose proof (exec_call_grows c st) as G.
  destruct (exec_call c st) as [x st1].
  specialize (IH st1). destruct (exec_calls cs st1) as [xs st2].
  eapply grows_trans; eauto.
Qed.

Lemma exec_call_cached (c c' : ref_call) (st1 st2 st3 : db) (x : nat) :
  same_key c c' -> exec_call c st1 = (x, st2) -> grows st2 st3 ->
  fst (exec_call c' st3) = x.
Proof.
  intros Hk Hc (Gc & Gm & Gk & _).
  destruct c as [n|n|m cn|acc rs], c' as [n'|n'|m' cn'|acc' rs']; simpl in Hk, Hc |- *;
    try contradiction.
  - apply county_step in Hc as (_ & Hl & _). apply Gc in Hl.
    unfold get_or_create_county; rewrite <- Hk, Hl; reflexivity.
  - apply commodity_step in Hc as (_ & Hl & _). apply Gm in Hl.
    unfold get_or_create_commodity; rewrite <- Hk, Hl; reflexivity.
  - apply market_step in Hc as (_ & Hl & _). apply Gk in Hl.
    unfold get_or_create_market.
    replace (market_key m' cn') with (market_key m cn)
      by (unfold market_key; destruct Hk as [-> ->]; reflexivity).
    rewrite Hl; reflexivity.
Qed.

(** C3 (idempotent lookup-or-create).  In a run (any sequence of county,
    commodity and market lookups and ingested batches against a store that
    nothing else writes), a lookup whose names equal an earlier lookup's
    after trimming and title-casing (for a market, with the same normalized
    county) returns the same id as the earlier one, whatever ran in
    between.  And over any such run, each reference table only gains rows
    appended at its end, their keys (name; name and county id for markets)
    pairwise distinct and absent before: no row is changed or removed and
    at most one insert is issued per key; the categories are untouched. *)
Theorem ref_lookup_idempotent :
  (forall calls1 c calls2 c' st0,
     same_key c c' ->
     let st1 := snd (exec_calls calls1 st0) in
     fst (exec_call c' (snd (exec_calls calls2 (snd (exec_call c st1))))) =
     fst (exec_call c st1)) /\
  (forall calls st0,
     let st' := snd (exec_calls calls st0) in
     fresh_ext county_key (counties st0) (counties st') /\
     fresh_ext commodity_key (commodities st0) (commodities st') /\
     fresh_ext market_row_key (markets st0) (markets st') /\
     categories st' = categories st0).
Proof.
  split.
  - intros calls1 c calls2 c' st0 Hk st1.
    destruct (exec_call c st1) as [x st2] eqn:Hc; simpl.
    eapply exec_call_cached; eauto. apply exec_calls_grows.
  - intros calls st0 st'.
    destruct (exec_calls_grows calls st0) as (_ & _ & _ & H1 & H2 & H3 & H4).
    repeat split; assumption.
Qed.

Lemma ref_lookup_idempotent_witness :
  fst (exec_call (GetCounty (t "NAIROBI"))
         (snd (exec_calls [GetMarket (t "Wakulima") (t "Nairobi");
                           Ingest accept_all [maize_record None]]
                 (snd (exec_call (GetCounty (t " nairobi ")) (snd (exec_calls [] empty_db)))))))
  = fst (exec_call (GetCounty (t " nairobi ")) (snd (exec_calls [] empty_db))).
Proof.
  exact (proj1 ref_lookup_idempotent [] (GetCounty (t " nairobi "))
           [GetMarket (t "Wakulima") (t "Nairobi"); Ingest accept_all [maize_record None]]
           (GetCounty (t "NAIROBI")) empty_db ltac:(vm_compute; reflexivity)).
Defined.

(** ** Batched persistence *)

Lemma county_keeps_prices (n : text) (st : db) :
  prices (snd (get_or_create_county n st)) = prices st /\
  log (snd (get_or_create_county n st)) = log st.
Proof.
  unfold get_or_create_county.
  destruct (lookup _ _); [split; reflexivity|].
  destruct (find _ _) as [[id nm]|]; split; reflexivity.
Qed.

Lemma commodity_keeps_prices (n : text) (st : db) :
  prices (snd (get_or_create_commodity n st)) = prices st /\
  log (snd (get_or_create_commodity n st)) = log st.
Proof.
  unfold get_or_create_commodity.
  destruct (lookup _ _); [split; reflexivity|].
  destruct (find _ _) as [[[id nm] cat]|]; split; reflexivity.
Qed.

Lemma market_keeps_prices (m c : text) (st : db) :
  prices (snd (get_or_create_market m c st)) = prices st /\
  log (snd (get_or_create_market m c st)) = log st.
Proof.
  unfold get_or_create_market.
  destruct (lookup _ _); [split; reflexivity|].
  pose proof (county_keeps_prices c st) as [Hp Hl].
  destruct (get_or_create_county c st) as [cid st1]; simpl in Hp, Hl.
  destruct (find _ _) as [[[id nm] cc]|]; split; simpl; congruence.
Qed.

Lemma insert_each_spec acc (b : list price_row) (n : nat) (st : db) :
  exists oks, List.length oks = List.length b /\
    log (snd (insert_each acc b n st)) = log st ++ row_events b oks /\
    prices (snd (insert_each acc b n st)) = prices st ++ kept b oks /\
    fst (insert_each acc b n st) = n + List.length (kept b oks).
Proof.
  revert n st; induction b as [|r b IH]; intros n st; simpl.
  - exists []; repeat split; try rewrite app_nil_r; auto.
  - destruct (acc (prices st) [r]).
    + destruct (IH (S n) (set_prices st (prices st ++ [r]) (log st ++ [RowInsert r true])))
        as (oks & Hl & Hlog & Hp & Hn).
      exists (true :: oks); simpl in *; repeat split.
      * congruence.
      * rewrite Hlog, <- app_assoc; reflexivity.
      * rewrite Hp, <- app_assoc; reflexivity.
      * rewrite Hn; simpl; lia.
    + destruct (IH n (set_prices st (prices st) (log st ++ [RowInsert r false])))
        as (oks & Hl & Hlog & Hp & Hn).
      exists (false :: oks); simpl in *; repeat split.
      * congruence.
      * rewrite Hlog, <- app_assoc; reflexivity.
      * exact Hp.
      * exact Hn.
Qed.

Lemma execute_batch_insert_spec acc (b : list price_row) (st : db) :
  exists e s, flush e b s /\
    log (snd (execute_batch_insert acc b st)) = log st ++ e /\
    prices (snd (execute_batch_insert acc b st)) = prices st ++ s /\
    fst (execute_batch_insert acc b st) = List.length s.
Proof.
  unfold execute_batch_insert. destruct (acc (prices st) b).
  - exists [BulkInsert b true], b; repeat split; constructor.
  - destruct (insert_each_spec acc b 0
                (set_prices st (prices st) (log st ++ [BulkInsert b false])))
      as (oks & Hl & Hlog & Hp & Hn).
    exists (BulkInsert b false :: row_events b oks), (kept b oks); simpl in *.
    repeat split.
    + constructor; exact Hl.
    + rewrite Hlog, <- app_assoc; reflexivity.
    + exact Hp.
    + exact Hn.
Qed.

Lemma flushes_length (evs : list event) (bs ss : list (list price_row)) :
  flushes evs bs ss -> List.length bs = List.length ss.
Proof. induction 1; [reflexivity|]; rewrite !length_app; simpl; lia. Qed.

Lemma concat_full_length (bs : list (list price_row)) :
  Forall (fun b => List.length b = BATCH_SIZE) bs ->
  List.length (List.concat bs) = BATCH_SIZE * List.length bs.
Proof.
  induction 1 as [|b bs Hb _ IH]; simpl; [reflexivity|].
  rewrite length_app, IH, Hb. unfold BATCH_SIZE; lia.
Qed.

Lemma flushed_before_eq (evs : list event) (bs ss : list (list price_row))
    (batch : list price_row) (x : list (list price_row)) :
  flushes evs bs ss -> Forall (fun b => List.length b = BATCH_SIZE) bs ->
  List.length batch < BATCH_SIZE ->
  flushed_before (ss ++ x) (List.concat bs ++ batch) = List.concat ss.
Proof.
  intros Hf Hfull Hb. unfold flushed_before.
  rewrite length_app, concat_full_length by exact Hfull.
  replace ((BATCH_SIZE * List.length bs + List.length batch) / BATCH_SIZE)
    with (List.length ss).
  - rewrite firstn_app, Nat.sub_diag, firstn_all. simpl. rewrite app_nil_r. reflexivity.
  - rewrite <- (flushes_length _ _ _ Hf). symmetry.
    rewrite Nat.mul_comm, Nat.div_add_l, Nat.div_small by (unfold BATCH_SIZE in *; lia). lia.
Qed.

Lemma ipr_loop_ex_grows acc raises after_raise
    (Hg : forall i s, grows s (after_raise i s)) (recs : list ScrapedRecord) :
  forall i count batch st,
  grows st (snd (ipr_loop_ex acc raises after_raise i recs count batch st)).
Proof.
  induction recs as [|r recs IH]; intros i count batch st; cbn [ipr_loop_ex];
    [apply grows_refl|].
  destruct (raises i); [eapply grows_trans; [apply Hg | apply IH]|].
  destruct (get_or_create_commodity (product_name r) st) as [cid st1] eqn:H1.
  destruct (get_or_create_market (market_name r) (county_name r) st1) as [mid st2] eqn:H2.
  apply commodity_step in H1 as (G1 & _). apply market_step in H2 as (G2 & _).
  apply grows_trans with st1; [exact G1|]. apply grows_trans with st2; [exact G2|].
  destruct (row_exists (prices st2) cid mid (iso_format (price_date r))); [apply IH|].
  destruct (Nat.leb BATCH_SIZE (List.length (batch ++ [make_row cid mid r]))); [|apply IH].
  pose proof (execute_batch_insert_grows acc (batch ++ [make_row cid mid r]) st2) as G3.
  destruct (execute_batch_insert acc (batch ++ [make_row cid mid r]) st2) as [n st3].
  apply grows_trans with st3; [exact G3 | apply IH].
Qed.

Lemma ipr_loop_ex_spec acc raises after_raise
    (Hp : forall i s, prices (after_raise i s) = prices s)
    (Hl : forall i s, log (after_raise i s) = log s)
    (Hg : forall i s, grows s (after_raise i s))
    (st0 : db) (recs : list ScrapedRecord) :
  forall i count batch st evs bs ss,
  log st = log st0 ++ evs -> flushes evs bs ss ->
  prices st = prices st0 ++ List.concat ss -> count = List.length (List.concat ss) ->
  Forall (fun b => List.length b = BATCH_SIZE) bs ->
  List.length batch < BATCH_SIZE ->
  let L := ipr_loop_ex acc raises after_raise i recs count batch st in
  exists evs' bs' ss' out,
    log (snd L) = log st0 ++ evs' /\
    flushes evs' bs' ss' /\
    prices (snd L) = prices st0 ++ List.concat ss' /\
    fst (fst L) = List.length (List.concat ss') /\
    Forall (fun b => List.length b = BATCH_SIZE) bs' /\
    List.length (snd (fst L)) < BATCH_SIZE /\
    (exists ssn, ss' = ss ++ ssn) /\
    List.concat bs' ++ snd (fst L) = List.concat bs ++ batch ++ out /\
    (forall stF ssF,
       cache_grows (cache_commodities (snd L)) (cache_commodities stF) ->
       cache_grows (cache_markets (snd L)) (cache_markets stF) ->
       (exists x, ssF = ss' ++ x) ->
       staging raises stF (prices st0) ssF i (List.concat bs ++ batch) recs out).
Proof.
  induction recs as [|r recs IH]; intros i count batch st evs bs ss
    Hlog Hfl Hpr Hc Hfull Hb L; subst L; cbn [ipr_loop_ex].
  - exists evs, bs, ss, []; repeat split; auto.
    + exists []; rewrite app_nil_r; reflexivity.
    + rewrite app_nil_r; reflexivity.
    + intros; constructor.
  - destruct (raises i) eqn:Hr.
    + destruct (IH (S i) count batch (after_raise i st) evs bs ss)
        as (evs' & bs' & ss' & out & H1 & H2 & H3 & H4 & H5 & H6 & H7 & H8 & H9);
        try rewrite Hl; try rewrite Hp; auto.
      exists evs', bs', ss', out; repeat split; auto.
      intros stF ssF Gc Gk Hx. apply staging_raise; [exact Hr | apply H9; auto].
    + pose proof (commodity_keeps_prices (product_name r) st) as [Hp1 Hl1].
      destruct (get_or_create_commodity (product_name r) st) as [cid st1] eqn:E1;
        simpl in Hp1, Hl1.
      pose proof (market_keeps_prices (market_name r) (county_name r) st1) as [Hp2 Hl2].
      destruct (get_or_create_market (market_name r) (county_name r) st1) as [mid st2] eqn:E2;
        simpl in Hp2, Hl2.
      apply commodity_step in E1 as (_ & L1 & _).
      apply market_step in E2 as ((_ & G2m & _) & L2 & _).
      assert (Hids : forall stF,
                cache_grows (cache_commodities st2) (cache_commodities stF) ->
                cache_grows (cache_markets st2) (cache_markets stF) ->
                rec_ids stF r cid mid).
      { intros stF Gm Gk. split; [apply Gm, G2m, L1 | apply Gk, L2]. }
      assert (Hpre : forall x, row_exists (prices st0 ++ flushed_before (ss ++ x)
                                 (List.concat bs ++ batch)) cid mid (iso_format (price_date r))
                               = row_exists (prices st2) cid mid (iso_format (price_date r))).
      { intros x. rewrite (flushed_before_eq evs bs ss batch x Hfl Hfull Hb), Hp2, Hp1, Hpr.
        reflexivity. }
      assert (Hss : forall ss' ssF, (exists ssn, ss' = ss ++ ssn) -> (exists x, ssF = ss' ++ x) ->
                      exists x, ssF = ss ++ x).
      { intros ss' ssF [ssn ->] [x ->]. exists (ssn ++ x). rewrite app_assoc; reflexivity. }
      destruct (row_exists (prices st2) cid mid (iso_format (price_date r))) eqn:Hx.
      * pose proof (ipr_loop_ex_grows acc raises after_raise Hg recs (S i) count batch st2)
          as (_ & GLm & GLk & _).
        destruct (IH (S i) count batch st2 evs bs ss)
          as (evs' & bs' & ss' & out & H1 & H2 & H3 & H4 & H5 & H6 & H7 & H8 & H9);
          auto; try congruence.
        exists evs', bs', ss', out; repeat split; auto.
        intros stF ssF Gc Gk HF. apply staging_dup with cid mid; [exact Hr | | | apply H9; auto].
        -- apply Hids; intros k v Hk; [apply Gc, GLm, Hk | apply Gk, GLk, Hk].
        -- destruct (Hss ss' ssF H7 HF) as [x ->]. apply Hpre.
      * set (row := make_row cid mid r) in *.
        destruct (Nat.leb_spec BATCH_SIZE (List.length (batch ++ [row]))) as [Hge|Hlt].
        -- destruct (execute_batch_insert_spec acc (batch ++ [row]) st2)
             as (e & s & Hf & Hle & Hpe & Hn).
           pose proof (execute_batch_insert_grows acc (batch ++ [row]) st2)
             as (_ & G3m & G3k & _).
           destruct (execute_batch_insert acc (batch ++ [row]) st2) as [n st3] eqn:E3;
             simpl in Hle, Hpe, Hn, G3m, G3k.
           pose proof (ipr_loop_ex_grows acc raises after_raise Hg recs (S i) (count + n) [] st3)
             as (_ & GLm & GLk & _).
           destruct (IH (S i) (count + n) [] st3 (evs ++ e) (bs ++ [batch ++ [row]]) (ss ++ [s]))
             as (evs' & bs' & ss' & out & H1 & H2 & H3 & H4 & H5 & H6 & H7 & H8 & H9).
           ++ rewrite Hle, Hl2, Hl1, Hlog, app_assoc; reflexivity.
           ++ constructor; assumption.
           ++ rewrite Hpe, Hp2, Hp1, Hpr, concat_app, app_assoc; simpl; rewrite app_nil_r;
                reflexivity.
           ++ rewrite concat_app, length_app; simpl; rewrite app_nil_r; lia.
           ++ apply Forall_app; split; [exact Hfull|].
              constructor; [|constructor].
              rewrite length_app in *; simpl in *; unfold BATCH_SIZE in *; lia.
           ++ simpl; unfold BATCH_SIZE; lia.
           ++ exists evs', bs', ss', (row :: out); repeat split; auto.
              ** destruct H7 as [ssn ->]. exists ([s] ++ ssn). rewrite app_assoc; reflexivity.
              ** rewrite H8, concat_app; simpl. rewrite !app_nil_r, <- !app_assoc. reflexivity.
              ** intros stF ssF Gc Gk HF.
                 apply staging_new; [exact Hr | | |].
                 --- apply Hids; intros k v Hk;
                       [apply Gc, GLm, G3m, Hk | apply Gk, GLk, G3k, Hk].
                 --- assert (H7' : exists ssn, ss' = ss ++ ssn)
                       by (destruct H7 as [ssn ->]; exists ([s] ++ ssn);
                           rewrite app_assoc; reflexivity).
                     destruct (Hss ss' ssF H7' HF) as [x ->]. apply Hpre.
                 --- specialize (H9 stF ssF Gc Gk HF).
                     rewrite concat_app in H9; simpl in H9.
                     rewrite !app_nil_r in H9. rewrite <- app_assoc. exact H9.
        -- pose proof (ipr_loop_ex_grows acc raises after_raise Hg recs (S i) count
                         (batch ++ [row]) st2) as (_ & GLm & GLk & _).
           destruct (IH (S i) count (batch ++ [row]) st2 evs bs ss)
             as (evs' & bs' & ss' & out & H1 & H2 & H3 & H4 & H5 & H6 & H7 & H8 & H9);
             auto; try congruence.
           exists evs', bs', ss', (row :: out); repeat split; auto.
           ++ rewrite H8, <- !app_assoc. reflexivity.
           ++ intros stF ssF Gc Gk HF.
              apply staging_new; [exact Hr | | |].
              ** apply Hids; intros k v Hk; [apply Gc, GLm, Hk | apply Gk, GLk, Hk].
              ** destruct (Hss ss' ssF H7 HF) as [x ->]. apply Hpre.
              ** specialize (H9 stF ssF Gc Gk HF). rewrite <- app_assoc. exact H9.
Qed.

Lemma ipr_loop_no_faults acc (recs : list ScrapedRecord) :
  forall i count batch st,
  ipr_loop acc recs count batch st =
  ipr_loop_ex acc (fun _ => false) (fun _ s => s) i recs count batch st.
Proof.
  induction recs as [|r recs IH]; intros i count batch st; cbn [ipr_loop ipr_loop_ex];
    [reflexivity|].
  destruct (get_or_create_commodity (product_name r) st) as [cid st1].
  destruct (get_or_create_market (market_name r) (county_name r) st1) as [mid st2].
  destruct (row_exists (prices st2) cid mid (iso_format (price_date r))); [apply IH|].
  destruct (Nat.leb BATCH_SIZE (List.length (batch ++ [make_row cid mid r]))); [|apply IH].
  destruct (execute_batch_insert acc (batch ++ [make_row cid mid r]) st2). apply IH.
Qed.

Lemma insert_price_records_no_faults acc (recs : list ScrapedRecord) (st : db) :
  insert_price_records acc recs st =
  insert_price_records_ex acc (fun _ => false) (fun _ s => s) recs st.
Proof.
  unfold insert_price_records, insert_price_records_ex.
  destruct recs as [|r rs]; [reflexivity|]. rewrite (ipr_loop_no_faults acc _ 0). reflexivity.
Qed.

(** C8 (batched persistence).  [insert_price_records] goes through the
    records in order.  A record whose preparation raises is skipped; any
    other one is checked against the rows the store held before the call
    and those stored by the batches flushed so far, and staged exactly when
    none has its commodity, market and date ([staging]).  The staged rows
    are flushed in batches: every batch but possibly the last holds exactly
    100 rows, and the last one, the remainder, holds between 1 and 100;
    concatenated, the batches are the staged rows.  Each flush is one bulk
    insert; when that fails, every row of the batch is then inserted on its
    own, in order, a failure not stopping the others.  The store gains
    exactly the rows of the successful bulk inserts and of the successful
    single-row inserts, and the returned count is their number.  Without
    faults in the preparation this is [insert_price_records] itself. *)
Theorem insert_price_records_batches acc (raises : nat -> bool)
    (after_raise : nat -> db -> db) (recs : list ScrapedRecord) (st : db)
    (Hp : forall i s, prices (after_raise i s) = prices s)
    (Hl : forall i s, log (after_raise i s) = log s)
    (Hg : forall i s, grows s (after_raise i s)) :
  insert_price_records acc recs st =
    insert_price_records_ex acc (fun _ => false) (fun _ s => s) recs st /\
  let res := insert_price_records_ex acc raises after_raise recs st in
  exists evs bs ss,
    log (snd res) = log st ++ evs /\
    flushes evs bs ss /\
    prices (snd res) = prices st ++ List.concat ss /\
    fst res = List.length (List.concat ss) /\
    staging raises (snd res) (prices st) ss 0 [] recs (List.concat bs) /\
    exists full rem,
      bs = full ++ rem /\
      Forall (fun b => List.length b = BATCH_SIZE) full /\
      (rem = [] \/ exists b, rem = [b] /\ 1 <= List.length b <= BATCH_SIZE).
Proof.
  split; [apply insert_price_records_no_faults|]. intros res; subst res.
  unfold insert_price_records_ex. destruct recs as [|r rs].
  - exists [], [], []; repeat split; try (simpl; rewrite app_nil_r; reflexivity).
    + constructor.
    + constructor.
    + exists [], []; repeat split; auto.
  - destruct (ipr_loop_ex_spec acc raises after_raise Hp Hl Hg st (r :: rs) 0 0 [] st [] [] [])
      as (evs & bs & ss & out & Hlog & Hfl & Hpr & Hc & Hfull & Hb & _ & Hcat & Hst);
      try rewrite app_nil_r; auto; try constructor; try (unfold BATCH_SIZE; simpl; lia).
    destruct (ipr_loop_ex acc raises after_raise 0 (r :: rs) 0 [] st) as [[count batch] st1];
      simpl in Hlog, Hpr, Hc, Hb, Hcat, Hst.
    destruct batch as [|p ps].
    + exists evs, bs, ss; repeat split; auto.
      * rewrite app_nil_r in Hcat. rewrite Hcat.
        apply Hst; [apply cache_grows_refl | apply cache_grows_refl|].
        exists []; rewrite app_nil_r; reflexivity.
      * exists bs, []; rewrite app_nil_r; repeat split; auto.
    + destruct (execute_batch_insert_spec acc (p :: ps) st1)
        as (e & s & Hf & Hle & Hpe & Hn).
      pose proof (execute_batch_insert_grows acc (p :: ps) st1) as (_ & G3m & G3k & _).
      cbv beta iota.
      destruct (execute_batch_insert acc (p :: ps) st1) as [n st2]; simpl in Hle, Hpe, Hn, G3m, G3k.
      simpl.
      exists (evs ++ e), (bs ++ [p :: ps]), (ss ++ [s]); repeat split.
      * rewrite Hle, Hlog, app_assoc; reflexivity.
      * constructor; assumption.
      * rewrite Hpe, Hpr, concat_app, app_assoc; simpl; rewrite app_nil_r; reflexivity.
      * rewrite concat_app, length_app; simpl; rewrite app_nil_r; lia.
      * rewrite concat_app; simpl; rewrite app_nil_r, Hcat.
        apply Hst; [exact G3m | exact G3k|]. exists [s]; reflexivity.
      * exists bs, [p :: ps]; repeat split; auto.
        right; exists (p :: ps); split; [reflexivity|]. unfold BATCH_SIZE in *; simpl in *; lia.
Qed.

(** Two records for one product, market and date, the first of whose
    preparation raises: the second one is staged and stored. *)
Lemma insert_price_records_batches_witness :
  insert_price_records accept_all [maize_record None; maize_record None] empty_db =
    insert_price_records_ex accept_all (fun _ => false) (fun _ s => s)
      [maize_record None; maize_record None] empty_db /\
  (let res := insert_price_records_ex accept_all (fun i => Nat.eqb i 0) (fun _ s => s)
                [maize_record None; maize_record None] empty_db in
   exists evs bs ss,
     log (snd res) = log empty_db ++ evs /\
     flushes evs bs ss /\
     prices (snd res) = prices empty_db ++ List.concat ss /\
     fst res = List.length (List.concat ss) /\
     staging (fun i => Nat.eqb i 0) (snd res) (prices empty_db) ss 0 []
       [maize_record None; maize_record None] (List.concat bs) /\
     exists full rem,
       bs = full ++ rem /\
       Forall (fun b => List.length b = BATCH_SIZE) full /\
       (rem = [] \/ exists b, rem = [b] /\ 1 <= List.length b <= BATCH_SIZE)).
Proof.
  apply (insert_price_records_batches accept_all (fun i => Nat.eqb i 0) (fun _ s => s)
           [maize_record None; maize_record None] empty_db);
    intros; [reflexivity | reflexivity | apply grows_refl].
Defined.

Lemma insert_price_records_nil acc (st : db) : insert_price_records acc [] st = (0, st).
Proof. reflexivity. Qed.

Lemma run_loop_sum accepts today fetch_page (ps : list product) :
  forall acc st,
    fst (run_loop accepts today fetch_page ps acc st) =
    acc + list_sum (product_counts accepts today fetch_page ps st).
Proof.
  induction ps as [|[pid name] ps IH]; intros acc st;
    cbn [run_loop product_counts].
  - simpl; lia.
  - destruct (scrape_product today fetch_page pid name) as [|r rs] eqn:Hs.
    + rewrite insert_price_records_nil, IH. simpl. lia.
    + destruct (insert_price_records accepts (r :: rs) st) as [n st1].
      rewrite IH. simpl. lia.
Qed.

(** C7 (error handling of [run]).  An error while fetching the product
    list is returned as is, with the store untouched; otherwise [run]
    returns the sum of the counts inserted for the selected products, the
    store threaded from one product to the next; and a product whose page
    fetch or table extraction raises yields no records, so the loop goes
    on with the next product exactly as if that product were absent. *)
Theorem run_error_handling accepts today fetch_page product_page
    (specific : option (list text)) (st : db) :
  (forall e, get_product_list product_page = Err e ->
     run accepts today fetch_page product_page specific st = (Err e, st)) /\
  (forall ps, get_product_list product_page = Ok ps ->
     fst (run accepts today fetch_page product_page specific st) =
     Ok (list_sum (product_counts accepts today fetch_page
                     (select_products specific ps) st))) /\
  (forall pid name ps total st' e,
     (page <- fetch_page pid ;; scrape_table today name page) = Err e ->
     scrape_product today fetch_page pid name = [] /\
     run_loop accepts today fetch_page ((pid, name) :: ps) total st' =
     run_loop accepts today fetch_page ps total st').
Proof.
  split; [|split].
  - intros e He. unfold run. rewrite He. reflexivity.
  - intros ps Hps. unfold run. rewrite Hps.
    pose proof (run_loop_sum accepts today fetch_page (select_products specific ps) 0 st)
      as Hsum.
    destruct (run_loop accepts today fetch_page (select_products specific ps) 0 st)
      as [total st1].
    simpl in *. rewrite Hsum. reflexivity.
  - intros pid name ps total st' e He.
    assert (Hs : scrape_product today fetch_page pid name = [])
      by (unfold scrape_product; rewrite He; reflexivity).
    split; [exact Hs|]. simpl. rewrite Hs. reflexivity.
Qed.

Lemma run_error_handling_witness :
  run accept_all (mkDate 2024 1 15) (fun _ => Err (FetchError 0))
      (Err (FetchError 1)) None empty_db = (Err (FetchError 1), empty_db) /\
  run_loop accept_all (mkDate 2024 1 15) (fun _ => Err (FetchError 0))
      [(7, t "Maize")] 0 empty_db = (0, empty_db).
Proof.
  destruct (run_error_handling accept_all (mkDate 2024 1 15) (fun _ => Err (FetchError 0))
              (Err (FetchError 1)) None empty_db) as (H1 & _ & H3).
  split.
  - apply H1. reflexivity.
  - destruct (H3 7 (t "Maize") [] 0 empty_db (FetchError 0) eq_refl) as [_ H].
    rewrite H. reflexivity.
Defined.

(** * Further properties of the code *)

(** ** [_initialize_categories] and [_categorize_product] *)

Lemma find_name_some (l : list (nat * text)) (n : text) (r : nat * text) :
  find (fun r => text_eqb (snd r) n) l = Some r -> In r l /\ snd r = n.
Proof.
  intros H. apply find_some in H as [Hin He]. apply text_eqb_eq in He. auto.
Qed.

Lemma find_name_none (l : list (nat * text)) (n : text) (id : nat) :
  find (fun r => text_eqb (snd r) n) l = None -> ~ In (id, n) l.
Proof.
  intros H Hin. pose proof (find_none _ _ H _ Hin) as E; simpl in E.
  rewrite text_eqb_refl in E; discriminate.
Qed.

Lemma init_categories_ext (names : list text) (st : db) :
  fresh_ext snd (categories st) (categories (init_categories names st)).
Proof.
  revert st; induction names as [|n ns IH]; intros st; simpl; [apply fresh_ext_refl|].
  destruct (find (fun r => text_eqb (snd r) n) (categories st)) eqn:Hf; [apply IH|].
  eapply fresh_ext_trans; [|apply IH]. simpl. apply fresh_ext_snoc.
  exact (find_none_not_in snd text_eqb text_eqb_eq _ _ Hf).
Qed.

Lemma init_categories_has (names : list text) (st : db) (n : text) :
  In n names -> exists id, In (id, n) (categories (init_categories names st)).
Proof.
  revert st; induction names as [|n' ns IH]; intros st Hin; [contradiction|].
  destruct Hin as [<- | Hin]; [|apply IH; exact Hin].
  simpl. set (st1 := match find _ (categories st) with Some _ => st | None => _ end).
  assert (Hn : exists id, In (id, n') (categories st1)).
  { unfold st1. destruct (find (fun r => text_eqb (snd r) n') (categories st)) as [[id nm]|] eqn:Hf.
    - apply find_name_some in Hf as [Hr Hs]; simpl in Hs; subst nm. exists id; exact Hr.
    - exists (next_id st); simpl. apply in_or_app; right; left; reflexivity. }
  destruct Hn as [id Hid]. exists id.
  destruct (init_categories_ext ns st1) as (add & -> & _).
  apply in_or_app; left; exact Hid.
Qed.


Lemma category_id_found (cats : list (nat * text)) (n : text) :
  (exists id, In (id, n) cats) -> exists id, category_id cats n = Some id.
Proof.
  intros [id Hin]. unfold category_id.
  destruct (find (fun r => text_eqb (snd r) n) cats) as [[i nm]|] eqn:Hf.
  - exists i; reflexivity.
  - exfalso; exact (find_name_none _ _ id Hf Hin).
Qed.






(** [_categorize_product], once the six categories exist: the id of the
    first category (in the order Grains, Vegetables, Fruits, Livestock,
    Fish) with a keyword occurring in the lower-cased name, else the id of
    "Other"; never [None]. *)
Theorem categorize_product_category (p : text) (st : db) :
  (forall n, In n category_names -> exists id, In (id, n) (categories st)) ->
  categorize_product p st =
    category_id (categories st) (first_category (lower p) category_map) /\
  categorize_product p st <> None.
Proof.
  intros H.
  assert (E : forall n, In n category_names -> exists id, category_id (categories st) n = Some id)
    by (intros n Hn; apply category_id_found, H, Hn).
  destruct (E (t "Grains") ltac:(simpl; tauto)) as [g Hg].
  destruct (E (t "Vegetables") ltac:(simpl; tauto)) as [v Hv].
  destruct (E (t "Fruits") ltac:(simpl; tauto)) as [f Hf].
  destruct (E (t "Livestock") ltac:(simpl; tauto)) as [l Hl].
  destruct (E (t "Fish") ltac:(simpl; tauto)) as [fi Hfi].
  destruct (E (t "Other") ltac:(simpl; tauto)) as [o Ho].
  unfold categorize_product, category_map.
  cbn [map first_category].
  rewrite Hg, Hv, Hf, Hl, Hfi, Ho.
  repeat match goal with
  | |- context [if ?b then _ else _] => destruct b
  end; split; congruence.
Qed.

Lemma categorize_product_category_witness :
  categorize_product (t "Nile Perch") (initialize_categories empty_db) =
    category_id (categories (initialize_categories empty_db))
                (first_category (lower (t "Nile Perch")) category_map) /\
  categorize_product (t "Nile Perch") (initialize_categories empty_db) <> None.
Proof.
  apply categorize_product_category.
  intros n Hn; apply init_categories_has; exact Hn.
Defined.

(** ** The caches of [DatabaseManager] point at rows *)

Lemma lookup_dict_set_inv (k n : text) (v w : nat) (d : list (text * nat)) :
  lookup k (dict_set n v d) = Some w -> (k = n /\ w = v) \/ lookup k d = Some w.
Proof.
  unfold dict_set; simpl. destruct (text_eqb k n) eqn:E.
  - apply text_eqb_eq in E; intros H; inversion H; auto.
  - rewrite lookup_filter_other; auto.
Qed.

Lemma refs_ok_mono (st st' : db) :
  (forall x, In x (counties st) -> In x (counties st')) ->
  (forall x, In x (commodities st) -> In x (commodities st')) ->
  (forall x, In x (markets st) -> In x (markets st')) ->
  cache_counties st' = cache_counties st ->
  cache_commodities st' = cache_commodities st ->
  cache_markets st' = cache_markets st ->
  refs_ok st -> refs_ok st'.
Proof.
  intros Hc Hm Hk E1 E2 E3 (R1 & R2 & R3).
  unfold refs_ok; rewrite E1, E2, E3. repeat split.
  - intros n id H; apply Hc, R1, H.
  - intros n id H; destruct (R2 n id H) as [cat Hcat]; exists cat; apply Hm, Hcat.
  - intros k id H; destruct (R3 k id H) as (mn & cid & cn & H1 & H2 & H3).
    exists mn, cid, cn; auto.
Qed.

Lemma refs_ok_app_ext (st st' : db) :
  (exists a, counties st' = counties st ++ a) ->
  (exists a, commodities st' = commodities st ++ a) ->
  (exists a, markets st' = markets st ++ a) ->
  cache_counties st' = cache_counties st ->
  cache_commodities st' = cache_commodities st ->
  cache_markets st' = cache_markets st ->
  refs_ok st -> refs_ok st'.
Proof.
  intros [a1 E1] [a2 E2] [a3 E3]. apply refs_ok_mono;
    intros x Hx; [rewrite E1 | rewrite E2 | rewrite E3]; apply in_or_app; left; exact Hx.
Qed.

Lemma refs_ok_cache_county (st : db) (n : text) (id : nat) :
  refs_ok st -> In (id, n) (counties st) ->
  refs_ok (set_caches st (dict_set n id (cache_counties st))
                      (cache_commodities st) (cache_markets st)).
Proof.
  intros (R1 & R2 & R3) Hin; unfold refs_ok; repeat split; simpl; auto.
  intros k w H. apply lookup_dict_set_inv in H as [[-> ->] | H]; auto.
Qed.

Lemma refs_ok_cache_commodity (st : db) (n : text) (id : nat) cat :
  refs_ok st -> In (id, n, cat) (commodities st) ->
  refs_ok (set_caches st (cache_counties st)
                      (dict_set n id (cache_commodities st)) (cache_markets st)).
Proof.
  intros (R1 & R2 & R3) Hin; unfold refs_ok; repeat split; simpl; auto.
  intros k w H. apply lookup_dict_set_inv in H as [[-> ->] | H]; eauto.
Qed.

Lemma refs_ok_cache_market (st : db) (k : text) (id cid : nat) (mn cn : text) :
  refs_ok st -> In (id, mn, cid) (markets st) -> In (cid, cn) (counties st) ->
  k = mn ++ [95%N] ++ cn ->
  refs_ok (set_caches st (cache_counties st) (cache_commodities st)
                      (dict_set k id (cache_markets st))).
Proof.
  intros (R1 & R2 & R3) Hm Hc Hk; unfold refs_ok; repeat split; simpl; auto.
  intros k' w H. apply lookup_dict_set_inv in H as [[-> ->] | H]; eauto.
  exists mn, cid, cn; auto.
Qed.

(** [_get_or_create_county] keeps every cache entry pointing at a row, and
    the id it returns is that of a county row carrying the trimmed,
    title-cased name. *)
Theorem get_or_create_county_row (n : text) (st : db) :
  refs_ok st ->
  refs_ok (snd (get_or_create_county n st)) /\
  In (fst (get_or_create_county n st), normalize n)
     (counties (snd (get_or_create_county n st))).
Proof.
  intros R. unfold get_or_create_county.
  destruct (lookup (normalize n) (cache_counties st)) as [id|] eqn:Hl; simpl.
  - split; [exact R | exact (proj1 R _ _ Hl)].
  - destruct (find (fun r => text_eqb (snd r) (normalize n)) (counties st))
      as [[id nm]|] eqn:Hf; simpl.
    + apply find_name_some in Hf as [Hin Hs]; simpl in Hs; subst nm.
      split; [apply refs_ok_cache_county; auto | exact Hin].
    + set (st1 := bump_id (set_counties st (counties st ++ [(next_id st, normalize n)]))).
      assert (R1 : refs_ok st1)
        by (apply refs_ok_app_ext with st; simpl; try reflexivity;
            first [exists []; rewrite app_nil_r; reflexivity | eexists; reflexivity | eauto]).
      assert (H1 : In (next_id st, normalize n) (counties st1))
        by (simpl; apply in_or_app; right; left; reflexivity).
      split; [exact (refs_ok_cache_county st1 _ _ R1 H1) | exact H1].
Qed.

Lemma get_or_create_county_row_witness :
  refs_ok empty_db /\
  refs_ok (snd (get_or_create_county (t " nairobi ") empty_db)) /\
  In (fst (get_or_create_county (t " nairobi ") empty_db), normalize (t " nairobi "))
     (counties (snd (get_or_create_county (t " nairobi ") empty_db))).
Proof.
  assert (R : refs_ok empty_db)
    by (repeat split; simpl; intros; discriminate).
  split; [exact R | apply get_or_create_county_row; exact R].
Defined.

(** [_get_or_create_commodity] keeps every cache entry pointing at a row,
    and the id it returns is that of a commodity row carrying the trimmed,
    title-cased name. *)
Theorem get_or_create_commodity_row (n : text) (st : db) :
  refs_ok st ->
  refs_ok (snd (get_or_create_commodity n st)) /\
  exists cat, In (fst (get_or_create_commodity n st), normalize n, cat)
                 (commodities (snd (get_or_create_commodity n st))).
Proof.
  intros R. unfold get_or_create_commodity.
  destruct (lookup (normalize n) (cache_commodities st)) as [id|] eqn:Hl; simpl.
  - split; [exact R | exact (proj1 (proj2 R) _ _ Hl)].
  - destruct (find (fun r => text_eqb (snd (fst r)) (normalize n)) (commodities st))
      as [[[id nm] cat]|] eqn:Hf; simpl.
    + apply find_some in Hf as [Hin Hs]; simpl in Hs; apply text_eqb_eq in Hs; subst nm.
      split; [eapply refs_ok_cache_commodity; eauto | exists cat; exact Hin].
    + set (cat := categorize_product (normalize n) st).
      set (st1 := bump_id (set_commodities st (commodities st ++ [(next_id st, normalize n, cat)]))).
      assert (R1 : refs_ok st1)
        by (apply refs_ok_app_ext with st; simpl; try reflexivity;
            first [exists []; rewrite app_nil_r; reflexivity | eexists; reflexivity | eauto]).
      assert (H1 : In (next_id st, normalize n, cat) (commodities st1))
        by (simpl; apply in_or_app; right; left; reflexivity).
      split; [exact (refs_ok_cache_commodity st1 _ _ _ R1 H1) | exists cat; exact H1].
Qed.

Lemma get_or_create_commodity_row_witness :
  refs_ok empty_db /\
  refs_ok (snd (get_or_create_commodity (t "dry maize") empty_db)) /\
  exists cat, In (fst (get_or_create_commodity (t "dry maize") empty_db),
                  normalize (t "dry maize"), cat)
                 (commodities (snd (get_or_create_commodity (t "dry maize") empty_db))).
Proof.
  assert (R : refs_ok empty_db)
    by (repeat split; simpl; intros; discriminate).
  split; [exact R | apply get_or_create_commodity_row; exact R].
Defined.

(** [_get_or_create_market] keeps every cache entry pointing at a row; the
    id it returns is that of a market row whose county row exists and
    whose name and county name, joined by "_", give the same cache key as
    the trimmed, title-cased market and county names asked for. *)
Theorem get_or_create_market_row (m c : text) (st : db) :
  refs_ok st ->
  refs_ok (snd (get_or_create_market m c st)) /\
  exists mn cid cn,
    In (fst (get_or_create_market m c st), mn, cid)
       (markets (snd (get_or_create_market m c st))) /\
    In (cid, cn) (counties (snd (get_or_create_market m c st))) /\
    market_key m c = mn ++ [95%N] ++ cn.
Proof.
  intros R. unfold get_or_create_market.
  destruct (lookup (market_key m c) (cache_markets st)) as [id|] eqn:Hl; simpl.
  - split; [exact R | exact (proj2 (proj2 R) _ _ Hl)].
  - destruct (get_or_create_county_row c st R) as [R1 Hc1].
    destruct (get_or_create_county c st) as [cid st1]; simpl in R1, Hc1.
    destruct (find (fun r => text_eqb (snd (fst r)) (normalize m) && Nat.eqb (snd r) cid)
                (markets st1)) as [[[id nm] cc]|] eqn:Hf; simpl.
    + apply find_some in Hf as [Hin Hs]; simpl in Hs.
      apply andb_true_iff in Hs as [Hs Hs']; apply text_eqb_eq in Hs;
        apply Nat.eqb_eq in Hs'; subst nm cc.
      split; [eapply refs_ok_cache_market; eauto; reflexivity|].
      exists (normalize m), cid, (normalize c); repeat split; auto.
    + set (st2 := bump_id (set_markets st1 (markets st1 ++ [(next_id st1, normalize m, cid)]))).
      assert (R2 : refs_ok st2)
        by (apply refs_ok_app_ext with st1; simpl; try reflexivity;
            first [exists []; rewrite app_nil_r; reflexivity | eexists; reflexivity | eauto]).
      assert (H2 : In (next_id st1, normalize m, cid) (markets st2))
        by (simpl; apply in_or_app; right; left; reflexivity).
      assert (H3 : In (cid, normalize c) (counties st2)) by exact Hc1.
      split; [exact (refs_ok_cache_market st2 _ _ _ _ _ R2 H2 H3 eq_refl)|].
      exists (normalize m), cid, (normalize c); repeat split; auto.
Qed.

Lemma get_or_create_market_row_witness :
  refs_ok empty_db /\
  refs_ok (snd (get_or_create_market (t "wakulima") (t "nairobi") empty_db)) /\
  exists mn cid cn,
    In (fst (get_or_create_market (t "wakulima") (t "nairobi") empty_db), mn, cid)
       (markets (snd (get_or_create_market (t "wakulima") (t "nairobi") empty_db))) /\
    In (cid, cn) (counties (snd (get_or_create_market (t "wakulima") (t "nairobi") empty_db))) /\
    market_key (t "wakulima") (t "nairobi") = mn ++ [95%N] ++ cn.
Proof.
  assert (R : refs_ok empty_db)
    by (repeat split; simpl; intros; discriminate).
  split; [exact R | apply get_or_create_market_row; exact R].
Defined.

Lemma refs_ok_insert_each acc (b : list price_row) (n : nat) (st : db) :
  refs_ok st -> refs_ok (snd (insert_each acc b n st)).
Proof.
  revert n st; induction b as [|r b IH]; intros n st R; simpl; [exact R|].
  destruct (acc (prices st) [r]); apply IH; exact R.
Qed.

Lemma refs_ok_execute_batch_insert acc (b : list price_row) (st : db) :
  refs_ok st -> refs_ok (snd (execute_batch_insert acc b st)).
Proof.
  intros R; unfold execute_batch_insert. destruct (acc (prices st) b); [exact R|].
  apply refs_ok_insert_each; exact R.
Qed.

Lemma refs_ok_ipr_loop acc (recs : list ScrapedRecord) (count : nat)
    (batch : list price_row) (st : db) :
  refs_ok st -> refs_ok (snd (ipr_loop acc recs count batch st)).
Proof.
  revert count batch st; induction recs as [|r recs IH]; intros count batch st R;
    cbn [ipr_loop]; [exact R|].
  pose proof (proj1 (get_or_create_commodity_row (product_name r) st R)) as R1.
  destruct (get_or_create_commodity (product_name r) st) as [cid st1]; simpl in R1.
  pose proof (proj1 (get_or_create_market_row (market_name r) (county_name r) st1 R1)) as R2.
  destruct (get_or_create_market (market_name r) (county_name r) st1) as [mid st2];
    simpl in R2.
  destruct (row_exists (prices st2) cid mid (iso_format (price_date r))); [apply IH; exact R2|].
  destruct (Nat.leb BATCH_SIZE (List.length (batch ++ [make_row cid mid r]))); [|apply IH; exact R2].
  pose proof (refs_ok_execute_batch_insert acc (batch ++ [make_row cid mid r]) st2 R2) as R3.
  destruct (execute_batch_insert acc (batch ++ [make_row cid mid r]) st2) as [n st3].
  apply IH; exact R3.
Qed.

Lemma refs_ok_insert_price_records acc (recs : list ScrapedRecord) (st : db) :
  refs_ok st -> refs_ok (snd (insert_price_records acc recs st)).
Proof.
  intros R; unfold insert_price_records. destruct recs as [|r rs]; [exact R|].
  pose proof (refs_ok_ipr_loop acc (r :: rs) 0 [] st R) as R1.
  destruct (ipr_loop acc (r :: rs) 0 [] st) as [[count batch] st1]; simpl in R1.
  destruct batch as [|p ps]; [exact R1|].
  pose proof (refs_ok_execute_batch_insert acc (p :: ps) st1 R1) as R2.
  destruct (execute_batch_insert acc (p :: ps) st1) as [n st2]; exact R2.
Qed.

Lemma refs_ok_run_loop accepts today fetch_page (ps : list product) (total : nat) (st : db) :
  refs_ok st -> refs_ok (snd (run_loop accepts today fetch_page ps total st)).
Proof.
  revert total st; induction ps as [|[pid name] ps IH]; intros total st R;
    cbn [run_loop]; [exact R|].
  destruct (scrape_product today fetch_page pid name) as [|r rs]; [apply IH; exact R|].
  pose proof (refs_ok_insert_price_records accepts (r :: rs) st R) as R1.
  destruct (insert_price_records accepts (r :: rs) st) as [n st1]. apply IH; exact R1.
Qed.

(** The caches of [DatabaseManager] never point at a missing row: this
    holds for a fresh manager (empty caches), and every lookup, every
    [insert_price_records] and every [run] keeps it. *)
Theorem refs_ok_run :
  (forall st, cache_counties st = [] -> cache_commodities st = [] ->
     cache_markets st = [] -> refs_ok st) /\
  (forall cs st, refs_ok st -> refs_ok (snd (exec_calls cs st))) /\
  (forall accepts today fetch_page product_page specific st, refs_ok st ->
     refs_ok (snd (run accepts today fetch_page product_page specific st))).
Proof.
  split; [|split].
  - intros st E1 E2 E3; unfold refs_ok; rewrite E1, E2, E3;
      repeat split; simpl; intros; discriminate.
  - induction cs as [|c cs IH]; intros st R; simpl; [exact R|].
    assert (R1 : refs_ok (snd (exec_call c st))).
    { destruct c as [n|n|m cn|acc rs]; simpl.
      - apply get_or_create_county_row; exact R.
      - apply get_or_create_commodity_row; exact R.
      - apply get_or_create_market_row; exact R.
      - apply refs_ok_insert_price_records; exact R. }
    destruct (exec_call c st) as [x st1]; simpl in R1.
    specialize (IH st1 R1). destruct (exec_calls cs st1) as [xs st2]; exact IH.
  - intros accepts today fetch_page product_page specific st R; unfold run.
    destruct (get_product_list product_page) as [ps|e]; [|exact R].
    pose proof (refs_ok_run_loop accepts today fetch_page (select_products specific ps) 0 st R)
      as R1.
    destruct (run_loop accepts today fetch_page (select_products specific ps) 0 st); exact R1.
Qed.

Lemma refs_ok_run_witness :
  refs_ok empty_db /\
  refs_ok (snd (exec_calls [GetMarket (t "Wakulima") (t "Nairobi");
                            Ingest accept_all [maize_record None]] empty_db)) /\
  refs_ok (snd (run accept_all (mkDate 2024 1 15) (fun _ => Ok None)
                    (Ok (Some [])) None empty_db)).
Proof.
  destruct refs_ok_run as (H1 & H2 & H3).
  assert (R : refs_ok empty_db) by (apply H1; reflexivity).
  split; [exact R | split; [apply H2; exact R | apply H3; exact R]].
Defined.

(** [_get_or_create_market] caches a market under
    [f"{market}_{county}"] of the normalized names, a key that does not
    determine the pair: two (market, county) pairs whose keys coincide get
    the same market id, the second lookup returning the first one's id
    and creating neither a market nor a county, although the counties
    differ (e.g. "Town_Market" in "Nakuru" and "Town" in "Market_Nakuru"). *)
Theorem market_cache_key_collision (m1 c1 m2 c2 : text) (st : db) :
  market_key m1 c1 = market_key m2 c2 ->
  get_or_create_market m2 c2 (snd (get_or_create_market m1 c1 st)) =
    (fst (get_or_create_market m1 c1 st), snd (get_or_create_market m1 c1 st)).
Proof.
  intros Hk.
  destruct (get_or_create_market m1 c1 st) as [x st1] eqn:H1; simpl.
  apply market_step in H1 as (_ & Hl & _).
  unfold get_or_create_market. rewrite <- Hk, Hl. reflexivity.
Qed.

Lemma market_cache_key_collision_witness :
  market_key (t "Town_Market") (t "Nakuru") = market_key (t "Town") (t "Market_Nakuru") /\
  normalize (t "Nakuru") <> normalize (t "Market_Nakuru") /\
  get_or_create_market (t "Town") (t "Market_Nakuru")
    (snd (get_or_create_market (t "Town_Market") (t "Nakuru") empty_db)) =
    (fst (get_or_create_market (t "Town_Market") (t "Nakuru") empty_db),
     snd (get_or_create_market (t "Town_Market") (t "Nakuru") empty_db)).
Proof.
  split; [reflexivity|]. split; [vm_compute; discriminate|].
  apply market_cache_key_collision. reflexivity.
Defined.

(** ** The inserted count *)

Lemma kept_length (b : list price_row) (oks : list bool) :
  List.length (kept b oks) <= List.length b.
Proof.
  revert oks; induction b as [|r b IH]; intros [|[] oks]; simpl; try lia;
    specialize (IH oks); lia.
Qed.

Lemma execute_batch_insert_le acc (b : list price_row) (st : db) :
  fst (execute_batch_insert acc b st) <= List.length b.
Proof.
  destruct (execute_batch_insert_spec acc b st) as (e & s & Hf & _ & _ & ->).
  inversion Hf; subst; [lia | apply kept_length].
Qed.

Lemma ipr_loop_count_le acc (recs : list ScrapedRecord) :
  forall count batch st,
  fst (fst (ipr_loop acc recs count batch st)) +
  List.length (snd (fst (ipr_loop acc recs count batch st))) <=
  count + List.length batch + List.length recs.
Proof.
  induction recs as [|r recs IH]; intros count batch st; cbn [ipr_loop]; [simpl; lia|].
  destruct (get_or_create_commodity (product_name r) st) as [cid st1].
  destruct (get_or_create_market (market_name r) (county_name r) st1) as [mid st2].
  change (List.length (r :: recs)) with (S (List.length recs)).
  destruct (row_exists (prices st2) cid mid (iso_format (price_date r))).
  - specialize (IH count batch st2); lia.
  - destruct (Nat.leb BATCH_SIZE (List.length (batch ++ [make_row cid mid r]))).
    + pose proof (execute_batch_insert_le acc (batch ++ [make_row cid mid r]) st2) as Hle.
      destruct (execute_batch_insert acc (batch ++ [make_row cid mid r]) st2) as [n st3].
      specialize (IH (count + n) [] st3). rewrite length_app in Hle; simpl in *; lia.
    + specialize (IH count (batch ++ [make_row cid mid r]) st2).
      rewrite length_app in IH; simpl in IH; lia.
Qed.

(** [insert_price_records] never reports more inserted rows than it was
    given records. *)
Theorem insert_price_records_count_le acc (recs : list ScrapedRecord) (st : db) :
  fst (insert_price_records acc recs st) <= List.length recs.
Proof.
  unfold insert_price_records. destruct recs as [|r rs]; [simpl; lia|].
  pose proof (ipr_loop_count_le acc (r :: rs) 0 [] st) as H.
  destruct (ipr_loop acc (r :: rs) 0 [] st) as [[count batch] st1]; simpl in H.
  destruct batch as [|p ps]; [simpl; lia|].
  pose proof (execute_batch_insert_le acc (p :: ps) st1) as H2.
  destruct (execute_batch_insert acc (p :: ps) st1) as [n st2]; simpl in *; lia.
Qed.

(** ** The market/county resolver *)

Lemma in_skipn_in (k : nat) (s : text) (c : N) : In c (skipn k s) -> In c s.
Proof.
  intros H. rewrite <- (firstn_skipn k s). apply in_or_app; right; exact H.
Qed.

Lemma match_rx_suffix (r : rx) (s : text) (cs : list text) (rest : text) :
  In (cs, rest) (match_rx r s) -> exists k, rest = skipn k s.
Proof.
  revert cs; induction r as [p|lz mn p|r IH]; intros cs H; simpl in H.
  - destruct s as [|c s']; [contradiction|].
    destruct (p c); [|contradiction]. destruct H as [H|[]]; inversion H; subst.
    exists 1; reflexivity.
  - destruct (Nat.ltb _ mn); [contradiction|].
    apply in_map_iff in H as (n & Hn & _). inversion Hn; subst. exists n; reflexivity.
  - apply in_map_iff in H as ([cs' rest'] & Hx & Hin). inversion Hx; subst.
    exact (IH _ Hin).
Qed.

Lemma match_seq_char (rs : list rx) (p : N -> bool) :
  forall s cs rest, In (cs, rest) (match_seq rs s) -> In (RChar p) rs ->
  exists c, In c s /\ p c = true.
Proof.
  induction rs as [|r rs IH]; intros s cs rest H Hp; [contradiction|].
  simpl in H. apply in_flat_map in H as ([c1 s1] & H1 & H2).
  apply in_map_iff in H2 as ([c2 s2] & Hx & H2). inversion Hx; subst.
  destruct Hp as [Hr | Hp].
  - subst r. simpl in H1. destruct s as [|c s']; [contradiction|].
    destruct (p c) eqn:Hc; [|contradiction]. exists c; split; [left|]; auto.
  - destruct (IH s1 c2 rest H2 Hp) as (c & Hc & Hpc).
    destruct (match_rx_suffix r s c1 s1 H1) as [k ->].
    exists c; split; [eapply in_skipn_in; exact Hc | exact Hpc].
Qed.

Lemma re_match_char (rs : list rx) (p : N -> bool) (s : text) (cs : list text) :
  re_match rs s = Some cs -> In (RChar p) rs -> exists c, In c s /\ p c = true.
Proof.
  unfold re_match. destruct (match_seq rs s) as [|[cs' rest] l] eqn:E; [discriminate|].
  intros _ Hp. apply (match_seq_char rs p s cs' rest); [rewrite E; left|]; auto.
Qed.

(** [_extract_county_from_market] on a text with none of the characters
    the three patterns need (a character of the dash class, "(", ","):
    no pattern matches, and the text, trimmed, is the market, with county
    "Unknown". *)
Theorem resolver_no_separator (s : text) :
  (forall c, In c s -> dash_class c = false /\ c <> 40%N /\ c <> 44%N) ->
  extract_county_from_market s = (strip s, t "Unknown").
Proof.
  intros H. unfold extract_county_from_market, market_patterns, first_split.
  assert (Hno : forall rs p, In (RChar p) rs -> (forall c, In c s -> p c = false) ->
                  re_match rs s = None).
  { intros rs p Hin Hp. destruct (re_match rs s) as [cs|] eqn:E; [|reflexivity].
    destruct (re_match_char rs p s cs E Hin) as (c & Hc & Hpc).
    rewrite (Hp c Hc) in Hpc; discriminate. }
  rewrite (Hno pat_dash dash_class ltac:(simpl; tauto) ltac:(intros c Hc; apply H, Hc)).
  rewrite (Hno pat_paren (is_char 40) ltac:(simpl; tauto)
             ltac:(intros c Hc; apply N.eqb_neq, H, Hc)).
  rewrite (Hno pat_comma (is_char 44) ltac:(simpl; tauto)
             ltac:(intros c Hc; apply N.eqb_neq, H, Hc)).
  reflexivity.
Qed.

Lemma resolver_no_separator_witness :
  (forall c, In c (t " Soko Mjinga ") -> dash_class c = false /\ c <> 40%N /\ c <> 44%N) /\
  extract_county_from_market (t " Soko Mjinga ") = (strip (t " Soko Mjinga "), t "Unknown").
Proof.
  assert (H : forall c, In c (t " Soko Mjinga ") ->
                dash_class c = false /\ c <> 40%N /\ c <> 44%N).
  { intros c Hc; simpl in Hc;
      repeat (destruct Hc as [<- | Hc]; [vm_compute; split; [reflexivity | split; discriminate]|]);
      contradiction. }
  split; [exact H | apply resolver_no_separator; exact H].
Defined.

Lemma run_length_prefix (p : N -> bool) (u : text) (i : nat) :
  i < run_length p u -> exists c u', skipn i u = c :: u' /\ p c = true.
Proof.
  revert i; induction u as [|c u IH]; intros i Hi; simpl in Hi; [lia|].
  destruct (p c) eqn:Hc; [|lia].
  destruct i as [|i]; [exists c, u; auto|]. simpl. apply IH; lia.
Qed.

Lemma run_length_stop (p : N -> bool) (u : text) :
  skipn (run_length p u) u = [] \/
  exists c u', skipn (run_length p u) u = c :: u' /\ p c = false.
Proof.
  induction u as [|c u IH]; simpl; [left; reflexivity|].
  destruct (p c) eqn:Hc; [exact IH | right; exists c, u; auto].
Qed.

Lemma dash_not_space (c : N) : dash_class c = true -> is_space c = false.
Proof.
  unfold dash_class; rewrite !orb_true_iff; intros [[[H|H]|H]|H];
    apply N.eqb_eq in H; subst; reflexivity.
Qed.

Lemma map_nil_caps (l : list (list text * text)) :
  map (fun '(c2, s2) => ([] ++ c2, s2)) l = l.
Proof. induction l as [|[c s] l IH]; [reflexivity|]. cbn [map]. rewrite IH. reflexivity. Qed.

Lemma map_pair_id (l : list (list text * text)) :
  map (fun '(c2, s2) => (c2, s2)) l = l.
Proof. induction l as [|[c s] l IH]; [reflexivity|]. cbn [map]. rewrite IH. reflexivity. Qed.

Lemma flat_map_nil_in {A B} (f : A -> list B) (l : list A) :
  (forall x, In x l -> f x = []) -> flat_map f l = [].
Proof.
  induction l as [|x l IH]; intros H; simpl; [reflexivity|].
  rewrite H by (left; reflexivity). apply IH; intros y Hy; apply H; right; exact Hy.
Qed.

Lemma ms_space_dash (rest : list rx) (u : text) :
  match_seq (RRun false 0 is_space :: RChar dash_class :: rest) u =
  match skipn (run_length is_space u) u with
  | c :: u' => if dash_class c then match_seq rest u' else []
  | [] => []
  end.
Proof.
  cbn [match_seq match_rx]. unfold counts.
  match goal with |- context [Nat.ltb ?a 0] => replace (Nat.ltb a 0) with false
    by (symmetry; apply Nat.ltb_ge; lia) end.
  replace (S (run_length is_space u) - 0) with (S (run_length is_space u)) by lia.
  rewrite seq_S, rev_app_distr. cbn [rev app map flat_map].
  rewrite (flat_map_nil_in _ (map _ (rev (seq 0 (run_length is_space u))))).
  2:{ intros x Hx. apply in_map_iff in Hx as (i & <- & Hi).
      apply in_rev, in_seq in Hi.
      destruct (run_length_prefix is_space u i ltac:(lia)) as (c & u' & -> & Hc).
      destruct (dash_class c) eqn:Hd; [rewrite dash_not_space in Hc; [discriminate | exact Hd]|].
      reflexivity. }
  rewrite app_nil_r. replace (0 + run_length is_space u) with (run_length is_space u) by lia.
  destruct (run_length_stop is_space u) as [E | (c & u' & E & Hc)]; rewrite E; [reflexivity|].
  destruct (dash_class c); [|reflexivity].
  cbn [flat_map]. rewrite app_nil_r, map_nil_caps, map_pair_id. reflexivity.
Qed.

Lemma lstrip_skipn (u : text) : lstrip u = skipn (run_length is_space u) u.
Proof. induction u as [|c u IH]; simpl; [reflexivity|]. destruct (is_space c); auto. Qed.

Lemma run_length_any (w : text) :
  (forall c, In c w -> c <> 10%N) -> run_length any_char w = List.length w.
Proof.
  induction w as [|c w IH]; intros H; simpl; [reflexivity|].
  unfold any_char. destruct (N.eqb_spec c 10) as [E|E];
    [exfalso; exact (H c (or_introl eq_refl) E)|].
  simpl; f_equal; apply IH; intros x Hx; apply H; right; exact Hx.
Qed.

Lemma ms_space_group (v : text) :
  (forall c, In c v -> c <> 10%N) -> lstrip v <> [] ->
  exists more,
    match_seq [RRun false 0 is_space; RGroup (RRun false 1 any_char)] v =
    ([lstrip v], []) :: more.
Proof.
  intros Hv Hne.
  cbn [match_seq match_rx]. unfold counts.
  match goal with |- context [Nat.ltb ?a 0] => replace (Nat.ltb a 0) with false
    by (symmetry; apply Nat.ltb_ge; lia) end.
  replace (S (run_length is_space v) - 0) with (S (run_length is_space v)) by lia.
  rewrite seq_S, rev_app_distr. cbn [rev app map flat_map].
  replace (0 + run_length is_space v) with (run_length is_space v) by lia.
  rewrite <- lstrip_skipn.
  set (w := lstrip v) in *.
  assert (Hw : forall c, In c w -> c <> 10%N).
  { intros c Hc; apply Hv. unfold w in Hc; rewrite lstrip_skipn in Hc.
    eapply in_skipn_in; exact Hc. }
  rewrite (run_length_any w Hw).
  destruct w as [|c0 w'] eqn:Ew; [contradiction|].
  cbn [List.length Nat.ltb Nat.leb].
  replace (S (S (List.length w')) - 1) with (S (List.length w')) by lia.
  rewrite seq_S, rev_app_distr. cbn [rev app map flat_map].
  assert (E1 : skipn (1 + List.length w') (c0 :: w') = []) by (simpl; apply skipn_all).
  rewrite E1.
  assert (E2 : firstn (S (List.length w') - List.length (@nil N)) (c0 :: w') = c0 :: w')
    by (simpl; rewrite firstn_all; reflexivity).
  rewrite E2. eexists. reflexivity.
Qed.

Lemma lstrip_spaces (x : text) : (forall c, In c x -> is_space c = true) -> lstrip x = [].
Proof.
  induction x as [|c x IH]; intros H; simpl; [reflexivity|].
  rewrite (H c (or_introl eq_refl)). apply IH; intros y Hy; apply H; right; exact Hy.
Qed.

Lemma lstrip_spaces_app (sp z : text) :
  (forall c, In c sp -> is_space c = true) -> lstrip (sp ++ z) = lstrip z.
Proof.
  induction sp as [|c sp IH]; intros H; simpl; [reflexivity|].
  rewrite (H c (or_introl eq_refl)). apply IH; intros y Hy; apply H; right; exact Hy.
Qed.

Lemma lstrip_app_nonspace (y z : text) : lstrip y <> [] -> lstrip (y ++ z) = lstrip y ++ z.
Proof.
  induction y as [|c y IH]; intros H; simpl in *; [contradiction|].
  destruct (is_space c); [apply IH; exact H | reflexivity].
Qed.

Lemma lstrip_head (x : text) (c : N) (r : text) : lstrip x = c :: r -> is_space c = false.
Proof.
  induction x as [|d x IH]; simpl; [discriminate|].
  destruct (is_space d) eqn:Hd; [exact IH | intros H; inversion H; subst; exact Hd].
Qed.

Lemma lstrip_idem (x : text) : lstrip (lstrip x) = lstrip x.
Proof.
  induction x as [|c x IH]; simpl; [reflexivity|].
  destruct (is_space c) eqn:Hc; [exact IH | simpl; rewrite Hc; reflexivity].
Qed.

Lemma lstrip_split (x : text) :
  x = firstn (run_length is_space x) x ++ lstrip x /\
  forall c, In c (firstn (run_length is_space x) x) -> is_space c = true.
Proof.
  induction x as [|c x IH]; simpl; [split; [reflexivity | intros _ []]|].
  destruct (is_space c) eqn:Hc; simpl.
  - destruct IH as [E H]; split; [rewrite <- E; reflexivity|].
    intros d [<- | Hd]; [exact Hc | apply H, Hd].
  - split; [reflexivity | intros _ []].
Qed.

Lemma strip_trailing_spaces (a1 sp : text) :
  lstrip a1 <> [] -> (forall c, In c sp -> is_space c = true) ->
  strip (a1 ++ sp) = strip a1.
Proof.
  intros Hne Hsp. unfold strip.
  rewrite (lstrip_app_nonspace a1 sp Hne), rev_app_distr.
  rewrite lstrip_spaces_app; [reflexivity|].
  intros c Hc; apply Hsp, in_rev, Hc.
Qed.

Lemma strip_lstrip (x : text) : strip (lstrip x) = strip x.
Proof. unfold strip; rewrite lstrip_idem; reflexivity. Qed.

Lemma run_stop_in (p : N -> bool) (y z : text) :
  (exists x, In x y /\ p x = false) ->
  exists c w, skipn (run_length p (y ++ z)) (y ++ z) = c :: w /\ In c y /\ p c = false.
Proof.
  induction y as [|d y IH]; intros (x & Hx & Hpx); [contradiction|].
  simpl. destruct (p d) eqn:Hd.
  - destruct Hx as [-> | Hx]; [congruence|].
    destruct (IH (ex_intro _ x (conj Hx Hpx))) as (c & w & E & Hc & Hpc).
    exists c, w; simpl; auto.
  - exists d, (y ++ z); simpl; auto.
Qed.

Lemma lstrip_nonspace_in (y : text) (c : N) : In c y -> is_space c = false -> lstrip y <> [].
Proof.
  induction y as [|d y IH]; intros Hin Hc; simpl; [contradiction|].
  destruct (is_space d) eqn:Hd; [|discriminate].
  destruct Hin as [-> | Hin]; [congruence | apply IH; auto].
Qed.

Lemma run_length_app_all (p : N -> bool) (sp z : text) :
  (forall x, In x sp -> p x = true) ->
  run_length p (sp ++ z) = List.length sp + run_length p z.
Proof.
  induction sp as [|c sp IH]; intros H; simpl; [reflexivity|].
  rewrite (H c (or_introl eq_refl)). f_equal. apply IH; intros x Hx; apply H; right; exact Hx.
Qed.

Lemma group_lazy_any (s : text) :
  (forall c, In c s -> c <> 10%N) -> s <> [] ->
  match_rx (RGroup (RRun true 1 any_char)) s =
  map (fun n => ([firstn n s], skipn n s)) (seq 1 (List.length s)).
Proof.
  intros Hs Hne. cbn [match_rx]. rewrite (run_length_any s Hs). unfold counts.
  destruct s as [|c0 s'] eqn:Es; [contradiction|]. rewrite <- Es.
  replace (Nat.ltb (List.length s) 1) with false
    by (symmetry; apply Nat.ltb_ge; rewrite Es; simpl; lia).
  replace (S (List.length s) - 1) with (List.length s) by lia.
  rewrite map_map. apply map_ext_in. intros n Hn. apply in_seq in Hn.
  rewrite length_skipn. f_equal. f_equal. f_equal. lia.
Qed.

Lemma dash_first_match (r' sp b : text) (c : N) :
  is_space c = false ->
  (forall x, In x (rev r' ++ [c]) -> dash_class x = false /\ x <> 10%N) ->
  (forall x, In x sp -> is_space x = true /\ x <> 10%N) ->
  (forall x, In x b -> x <> 10%N) -> lstrip b <> [] ->
  re_match pat_dash ((rev r' ++ [c]) ++ sp ++ 45%N :: b) = Some [rev r' ++ [c]; lstrip b].
Proof.
  intros Hc Ha Hsp Hb Hlb.
  set (a1 := rev r' ++ [c]) in *.
  set (s := a1 ++ sp ++ 45%N :: b).
  assert (Hs : forall x, In x s -> x <> 10%N).
  { intros x Hx; unfold s in Hx. apply in_app_or in Hx as [Hx|Hx]; [apply Ha, Hx|].
    apply in_app_or in Hx as [Hx|[<-|Hx]]; [apply Hsp, Hx | discriminate | apply Hb, Hx]. }
  assert (Hn0 : List.length a1 = S (List.length r'))
    by (unfold a1; rewrite length_app, length_rev; simpl; lia).
  assert (HL : List.length s = List.length a1 + List.length sp + S (List.length b))
    by (unfold s; rewrite !length_app; simpl; lia).
  unfold re_match.
  change (match_seq pat_dash s) with
    (flat_map (fun '(c1, s1) => map (fun '(c2, s2) => (c1 ++ c2, s2))
       (match_seq (RRun false 0 is_space :: RChar dash_class ::
                   [RRun false 0 is_space; RGroup (RRun false 1 any_char)]) s1))
       (match_rx (RGroup (RRun true 1 any_char)) s)).
  rewrite group_lazy_any; [|exact Hs | intros H; rewrite H in HL; simpl in HL; lia].
  replace (List.length s) with (List.length r' + S (List.length sp + S (List.length b)))
    by lia.
  rewrite seq_app, map_app, flat_map_app.
  rewrite flat_map_nil_in.
  2:{ intros x Hx. apply in_map_iff in Hx as (n & <- & Hn). apply in_seq in Hn.
      rewrite ms_space_dash.
      assert (E : skipn n s = (skipn n (rev r') ++ [c]) ++ sp ++ 45%N :: b).
      { unfold s, a1. rewrite <- app_assoc, skipn_app, length_rev.
        replace (n - List.length r') with 0 by lia. cbn [skipn].
        rewrite <- !app_assoc. reflexivity. }
      rewrite E.
      destruct (run_stop_in is_space (skipn n (rev r') ++ [c]) (sp ++ 45%N :: b))
        as (c' & w & E' & Hin & Hsc).
      { exists c; split; [apply in_or_app; right; left|]; auto. }
      rewrite E'.
      assert (Hd : dash_class c' = false).
      { apply Ha. unfold a1. apply in_app_or in Hin as [Hin|Hin];
          apply in_or_app; [left; eapply in_skipn_in; exact Hin | right; exact Hin]. }
      rewrite Hd. reflexivity. }
  replace (1 + List.length r') with (S (List.length r')) by lia.
  cbn [seq map flat_map app].
  rewrite ms_space_dash.
  assert (E : skipn (S (List.length r')) s = sp ++ 45%N :: b).
  { unfold s. rewrite skipn_app, <- Hn0, skipn_all, Nat.sub_diag; reflexivity. }
  rewrite E.
  rewrite run_length_app_all by (intros x Hx; apply Hsp, Hx).
  replace (run_length is_space (45%N :: b)) with 0 by reflexivity.
  rewrite Nat.add_0_r, skipn_app, skipn_all, Nat.sub_diag. cbn [app skipn].
  replace (dash_class 45) with true by reflexivity.
  destruct (ms_space_group b Hb Hlb) as [more Em]. rewrite Em.
  cbn [map app].
  assert (E2 : firstn (S (List.length r')) s = a1).
  { unfold s. rewrite firstn_app, <- Hn0, firstn_all, Nat.sub_diag; simpl.
    rewrite app_nil_r; reflexivity. }
  rewrite E2. reflexivity.
Qed.

(** [_extract_county_from_market] on "<market> - <county>" with an ASCII
    hyphen: when the market part has no character of the dash class and
    neither part has a newline or is blank, the first pattern splits the
    text at that hyphen, and the result is the market part and the county
    part, both trimmed (whatever "(", "," or further hyphens the county
    part holds). *)
Theorem resolver_dash_split (a b : text) :
  (forall c, In c a -> dash_class c = false /\ c <> 10%N) ->
  (forall c, In c b -> c <> 10%N) ->
  strip a <> [] -> strip b <> [] ->
  extract_county_from_market (a ++ [45%N] ++ b) = (strip a, strip b).
Proof.
  intros Ha Hb Hsa Hsb.
  destruct (lstrip_split (rev a)) as [Esplit Hsp'].
  remember (firstn (run_length is_space (rev a)) (rev a)) as sp' eqn:Hsp'def.
  remember (lstrip (rev a)) as r eqn:Hr.
  assert (Ea : a = rev r ++ rev sp')
    by (rewrite <- rev_app_distr, <- Esplit, rev_involutive; reflexivity).
  assert (Hsp : forall x, In x (rev sp') -> is_space x = true /\ x <> 10%N).
  { intros x Hx. split; [apply Hsp', in_rev, Hx|].
    apply Ha. rewrite Ea. apply in_or_app; right; exact Hx. }
  destruct r as [|c r'].
  - exfalso. apply Hsa. unfold strip.
    rewrite (lstrip_spaces a); [reflexivity|].
    intros x Hx. rewrite Ea in Hx. apply Hsp, Hx.
  - assert (Hc : is_space c = false) by (apply (lstrip_head (rev a) c r'); auto).
    simpl rev in Ea.
    assert (Hlb : lstrip b <> []).
    { intros E; apply Hsb; unfold strip; rewrite E; reflexivity. }
    assert (Ha1 : forall x, In x (rev r' ++ [c]) -> dash_class x = false /\ x <> 10%N)
      by (intros x Hx; apply Ha; rewrite Ea; apply in_or_app; left; exact Hx).
    assert (Hne : lstrip (rev r' ++ [c]) <> [])
      by (apply (lstrip_nonspace_in _ c); [apply in_or_app; right; left|]; auto).
    rewrite Ea, (strip_trailing_spaces _ _ Hne (fun x Hx => proj1 (Hsp x Hx))).
    rewrite <- app_assoc. cbn [app].
    unfold extract_county_from_market, market_patterns, first_split.
    rewrite (dash_first_match r' (rev sp') b c Hc Ha1 Hsp Hb Hlb).
    rewrite strip_lstrip. reflexivity.
Qed.

Lemma resolver_dash_split_witness :
  extract_county_from_market (t " Soko Mjinga (Main) " ++ [45%N] ++ t " Kiambu, Central ") =
    (strip (t " Soko Mjinga (Main) "), strip (t " Kiambu, Central ")).
Proof.
  apply resolver_dash_split.
  - intros c Hc; simpl in Hc;
      repeat (destruct Hc as [<- | Hc]; [vm_compute; split; [reflexivity | discriminate]|]);
      contradiction.
  - intros c Hc; simpl in Hc;
      repeat (destruct Hc as [<- | Hc]; [vm_compute; discriminate|]); contradiction.
  - vm_compute; discriminate.
  - vm_compute; discriminate.
Defined.

(** ** [_parse_volume] *)

Lemma drop_nondigits_prefix (p s : text) :
  forallb (fun c => negb (is_digit c)) p = true -> drop_nondigits (p ++ s) = drop_nondigits s.
Proof.
  induction p as [|c p IH]; intros H; simpl in *; [reflexivity|].
  apply andb_true_iff in H as [Hc H]. apply negb_true_iff in Hc. rewrite Hc. apply IH, H.
Qed.

Lemma take_digits_run (d q : text) :
  forallb is_digit d = true ->
  match q with c :: _ => is_digit c = false | [] => True end ->
  take_digits (d ++ q) = d.
Proof.
  induction d as [|c d IH]; intros Hd Hq; simpl in *.
  - destruct q as [|c q]; simpl; [reflexivity | rewrite Hq; reflexivity].
  - apply andb_true_iff in Hd as [Hc Hd]. rewrite Hc, IH; auto.
Qed.

Lemma drop_nondigits_none (s : text) :
  (forall c, In c s -> is_digit c = false) -> drop_nondigits s = [].
Proof.
  induction s as [|c s IH]; intros H; simpl; [reflexivity|].
  rewrite (H c (or_introl eq_refl)). apply IH; intros x Hx; apply H; right; exact Hx.
Qed.

(** [_parse_volume] reads the first run of digits of the text with its
    commas removed, as a whole number: after the commas are dropped, a
    text made of non-digits, a run of digits and a rest not starting with
    a digit gives the run's value (so "5,000 kg" gives 5000 and "1.5 t"
    gives 1); a marker or a text without digits gives [None]. *)
Theorem parse_volume_first_run :
  (forall v p d q : text,
     absent_marker v = false ->
     filter (fun c => negb (N.eqb c 44)) v = p ++ d ++ q ->
     forallb (fun c => negb (is_digit c)) p = true ->
     d <> [] -> forallb is_digit d = true ->
     match q with c :: _ => is_digit c = false | [] => True end ->
     parse_volume v = Some (mkDecimal false (digits_val d) 0)) /\
  (forall v : text,
     absent_marker v = true \/ (forall c, In c v -> is_digit c = false) ->
     parse_volume v = None).
Proof.
  split.
  - intros v p d q Hm Hf Hp Hne Hd Hq.
    unfold parse_volume, first_number. rewrite Hm, Hf, drop_nondigits_prefix by exact Hp.
    assert (Hdrop : drop_nondigits (d ++ q) = d ++ q).
    { destruct d as [|c d']; [contradiction|]. simpl in Hd |- *.
      apply andb_true_iff in Hd as [Hc _]. rewrite Hc. reflexivity. }
    rewrite Hdrop, take_digits_run by assumption.
    destruct d as [|c d']; [contradiction|]. cbv iota.
    unfold decimal_of_text. apply int_part_spec.
    exists (c :: d'), [], false. rewrite app_nil_r. repeat split; auto.
    simpl; lia.
    unfold digits_val; rewrite app_nil_r; reflexivity.
  - intros v [Hm | Hd]; unfold parse_volume.
    + rewrite Hm; reflexivity.
    + destruct (absent_marker v); [reflexivity|]. unfold first_number.
      rewrite drop_nondigits_none; [reflexivity|].
      intros c Hc. apply filter_In in Hc as [Hc _]. apply Hd, Hc.
Qed.

Lemma parse_volume_first_run_witness :
  parse_volume (t "1,250.5 bags") = Some (mkDecimal false 1250 0) /\
  parse_volume (t "High") = None.
Proof.
  destruct parse_volume_first_run as [H1 H2]. split.
  - apply (H1 (t "1,250.5 bags") [] (t "1250") (t ".5 bags")); vm_compute; try reflexivity;
      discriminate.
  - apply H2. right. intros c Hc; simpl in Hc;
      repeat (destruct Hc as [<- | Hc]; [reflexivity|]); contradiction.
Defined.

(** ** [_parse_date] on the text of a stored date *)

Lemma digit_char_ok (n : N) :
  is_digit (48 + n mod 10)%N = true /\ digit_val (48 + n mod 10)%N = (n mod 10)%N.
Proof.
  pose proof (N.mod_lt n 10 ltac:(discriminate)) as Hlt.
  unfold is_digit, digit_val. generalize dependent (n mod 10)%N. intros r Hr. split.
  - apply andb_true_iff; split; apply N.leb_le; lia.
  - lia.
Qed.

Lemma match_year (y : N) (s : text) :
  (y <= 9999)%N -> match_item FY (digits_of 4 y ++ s) = [(Some y, s)].
Proof.
  intros Hy. cbn [digits_of]. rewrite <- !app_assoc. cbn [app match_item].
  destruct (digit_char_ok (y / 10 / 10 / 10)) as [H2 V2].
  destruct (digit_char_ok (y / 10 / 10)) as [H3 V3].
  destruct (digit_char_ok (y / 10)) as [H4 V4].
  destruct (digit_char_ok y) as [H5 V5].
  rewrite H2, H3, H4, H5. cbn [andb]. unfold two. rewrite V2, V3, V4, V5.
  do 3 f_equal.
  assert (E1 : (y = 10 * (y / 10) + y mod 10)%N) by (apply N.div_mod; discriminate).
  assert (E2 : (y / 10 = 10 * (y / 10 / 10) + (y / 10) mod 10)%N) by (apply N.div_mod; discriminate).
  assert (E3 : (y / 10 / 10 = 10 * (y / 10 / 10 / 10) + (y / 10 / 10) mod 10)%N)
    by (apply N.div_mod; discriminate).
  assert (E4 : (y / 10 / 10 / 10 < 10)%N) by lia.
  rewrite (N.mod_small (y / 10 / 10 / 10) 10 E4). lia.
Qed.

Lemma match_month (m : N) (s : text) :
  (1 <= m <= 12)%N -> exists tl, match_item Fm (digits_of 2 m ++ s) = (Some m, s) :: tl.
Proof.
  intros Hm.
  assert (m = 1 \/ m = 2 \/ m = 3 \/ m = 4 \/ m = 5 \/ m = 6 \/ m = 7 \/ m = 8
          \/ m = 9 \/ m = 10 \/ m = 11 \/ m = 12)%N as Hc by lia.
  repeat destruct Hc as [-> | Hc]; try subst m; eexists; reflexivity.
Qed.

Lemma match_day (d : N) (s : text) :
  (1 <= d <= 31)%N -> exists tl, match_item Fd (digits_of 2 d ++ s) = (Some d, s) :: tl.
Proof.
  intros Hd.
  assert (exists k, d = N.of_nat k /\ (1 <= k <= 31)%nat) as (k & -> & Hk)
    by (exists (N.to_nat d); lia).
  do 32 (destruct k as [|k]; [try lia; eexists; reflexivity|]). lia.
Qed.

Lemma match_format_head (it : fmt_item) (its : list fmt_item) (fs : fields) (s s1 : text)
    (v : option N) (x : fields * text) :
  (exists tl, match_item it s = (v, s1) :: tl) ->
  (exists tl', match_format its (set_field it v fs) s1 = x :: tl') ->
  exists tl'', match_format (it :: its) fs s = x :: tl''.
Proof.
  intros [tl H1] [tl' H2]. cbn [match_format]. rewrite H1. cbn [flat_map]. rewrite H2.
  eexists; reflexivity.
Qed.

Lemma digit_not_space (c : N) : is_digit c = true -> is_space c = false.
Proof.
  unfold is_digit, is_space; intros H; apply andb_true_iff in H as [A1 A2].
  apply N.leb_le in A1; apply N.leb_le in A2.
  repeat (apply orb_false_iff; split);
    first [ apply andb_false_iff; right; apply N.leb_gt; lia
          | apply andb_false_iff; left; apply N.leb_gt; lia
          | apply N.eqb_neq; lia ].
Qed.

Lemma strip_iso_format (d : date) : strip (iso_format d) = iso_format d.
Proof.
  unfold strip, iso_format. cbn [digits_of app rev lstrip].
  rewrite (digit_not_space _ (proj1 (digit_char_ok (year d / 10 / 10 / 10)))).
  cbn [rev app lstrip].
  rewrite (digit_not_space _ (proj1 (digit_char_ok (day d)))).
  cbn [rev app]. reflexivity.
Qed.

Lemma match_iso_format (y m d : N) :
  (y <= 9999)%N -> (1 <= m <= 12)%N -> (1 <= d <= 31)%N ->
  exists tl, match_format [FY; FLit 45; Fm; FLit 45; Fd] (None, None, None)
               (iso_format (mkDate y m d)) = ((Some y, Some m, Some d), []) :: tl.
Proof.
  intros Hy Hm Hd. unfold iso_format; cbn [year month day].
  rewrite <- (app_nil_r (digits_of 2 d)).
  eapply (match_format_head FY _ _ _ _ (Some y)); [exists []; apply match_year; exact Hy|].
  eapply (match_format_head (FLit 45) _ _ _ _ None); [exists []; reflexivity|].
  eapply (match_format_head Fm _ _ _ _ (Some m)); [apply match_month; exact Hm|].
  eapply (match_format_head (FLit 45) _ _ _ _ None); [exists []; reflexivity|].
  eapply (match_format_head Fd _ _ _ _ (Some d)); [apply match_day; exact Hd|].
  exists []; reflexivity.
Qed.

Lemma parse_date_iso_format_valid (today d : date) :
  valid_date d = true -> parse_date today (iso_format d) = d.
Proof.
  intros Hv. pose proof Hv as Hv'.
  destruct d as [y m dd]. unfold valid_date in Hv; cbn [year month day] in Hv.
  repeat rewrite andb_true_iff in Hv. rewrite !N.leb_le in Hv.
  destruct Hv as (((((Hy1 & Hy2) & Hm1) & Hm2) & Hd1) & Hd2).
  assert (Hdim : (days_in_month y m <= 31)%N)
    by (unfold days_in_month; destruct m as [|p]; [lia|];
        repeat (destruct p as [p|p|]; try lia); destruct (is_leap y); lia).
  destruct (match_iso_format y m dd ltac:(lia) ltac:(lia) ltac:(lia)) as [tl Hmf].
  unfold parse_date. rewrite strip_iso_format. unfold date_formats. cbn [try_formats].
  assert (Hs : strptime (t "%Y-%m-%d") (iso_format (mkDate y m dd)) = Some (mkDate y m dd)).
  { unfold strptime.
    change (compile_format (t "%Y-%m-%d")) with [FY; FLit 45; Fm; FLit 45; Fd].
    rewrite Hmf. cbv beta iota. rewrite Hv'. reflexivity. }
  rewrite Hs. reflexivity.
Qed.

(** [_parse_date] reads back the text [str(d)] of a stored date: for every
    valid calendar date [d], parsing its [YYYY-MM-DD] form gives [d] again,
    whatever the current date is. *)
Theorem parse_date_iso_roundtrip (today d : date) :
  valid_date d = true -> parse_date today (iso_format d) = d.
Proof. apply parse_date_iso_format_valid. Qed.

Lemma parse_date_iso_roundtrip_witness :
  valid_date (mkDate 2024 2 29) = true /\
  parse_date (mkDate 2026 10 15) (iso_format (mkDate 2024 2 29)) = mkDate 2024 2 29.
Proof.
  split; [reflexivity | apply parse_date_iso_roundtrip; reflexivity].
Defined.

(** ** The row loop of [scrape_product] *)

Lemma cell_text_ok_lt (cells : list cell) (i : Z) (x : text) :
  cell_text cells i = Ok x -> (Z.to_nat i < List.length cells)%nat.
Proof.
  unfold cell_text; destruct (nth_error cells (Z.to_nat i)) eqn:E; [|discriminate].
  intros _; apply nth_error_Some; congruence.
Qed.

Lemma cell_text_lt_ok (cells : list cell) (i : Z) :
  (Z.to_nat i < List.length cells)%nat -> exists x, cell_text cells i = Ok x.
Proof.
  unfold cell_text; intros H. apply nth_error_Some in H.
  destruct (nth_error cells (Z.to_nat i)); [eexists; reflexivity | contradiction].
Qed.

Lemma opt_cell_ok_lt (cells : list cell) (i : Z) (dflt x : text) :
  opt_cell cells i dflt = Ok x -> (0 <= i)%Z -> (Z.to_nat i < List.length cells)%nat.
Proof.
  unfold opt_cell; intros H Hi. apply Z.leb_le in Hi; rewrite Hi in H.
  eapply cell_text_ok_lt; eauto.
Qed.

Lemma opt_cell_none_ok_lt (cells : list cell) (i : Z) (x : option text) :
  opt_cell_none cells i = Ok x -> (0 <= i)%Z -> (Z.to_nat i < List.length cells)%nat.
Proof.
  unfold opt_cell_none, bind; intros H Hi. apply Z.leb_le in Hi; rewrite Hi in H.
  destruct (cell_text cells i) eqn:E; [|discriminate]. eapply cell_text_ok_lt; eauto.
Qed.

Lemma opt_cell_ok (cells : list cell) (i : Z) (dflt : text) :
  ((0 <= i)%Z -> (Z.to_nat i < List.length cells)%nat) ->
  exists x, opt_cell cells i dflt = Ok x.
Proof.
  unfold opt_cell; intros H. destruct (Z.leb_spec 0 i) as [Hi|Hi].
  - apply cell_text_lt_ok, H, Hi.
  - eexists; reflexivity.
Qed.

Lemma opt_cell_none_ok (cells : list cell) (i : Z) :
  ((0 <= i)%Z -> (Z.to_nat i < List.length cells)%nat) ->
  exists x, opt_cell_none cells i = Ok x.
Proof.
  unfold opt_cell_none, bind; intros H. destruct (Z.leb_spec 0 i) as [Hi|Hi].
  - destruct (cell_text_lt_ok cells i (H Hi)) as [x ->]. eexists; reflexivity.
  - eexists; reflexivity.
Qed.

Lemma scrape_row_ok_cols (today : date) (ix : idx_map) (product : text)
    (cells : list cell) (r : ScrapedRecord) :
  scrape_row today ix product cells = Ok r ->
  forall i, In i (mapped_columns ix) -> (0 <= i)%Z -> (Z.to_nat i < List.length cells)%nat.
Proof.
  unfold scrape_row, bind; intros H.
  destruct (opt_cell cells (ix_market ix) []) as [mt|e] eqn:Hm; [|discriminate].
  destruct (0 <=? ix_county ix)%Z eqn:Hc.
  - destruct (cell_text cells (ix_county ix)) as [c|e] eqn:Ec; [|discriminate].
    split_results H.
    intros i Hi Hnn; simpl in Hi.
    repeat destruct Hi as [<- | Hi];
      first [ eapply opt_cell_ok_lt; eassumption
            | eapply opt_cell_none_ok_lt; eassumption
            | eapply cell_text_ok_lt; eassumption
            | contradiction ].
  - split_results H.
    intros i Hi Hnn; simpl in Hi.
    repeat destruct Hi as [<- | Hi];
      first [ eapply opt_cell_ok_lt; eassumption
            | eapply opt_cell_none_ok_lt; eassumption
            | apply Z.leb_le in Hnn; congruence
            | contradiction ].
Qed.

Lemma scrape_row_cols_ok (today : date) (ix : idx_map) (product : text)
    (cells : list cell) :
  (forall i, In i (mapped_columns ix) -> (0 <= i)%Z -> (Z.to_nat i < List.length cells)%nat) ->
  exists r, scrape_row today ix product cells = Ok r.
Proof.
  intros H.
  assert (G : forall i, In i (mapped_columns ix) ->
            (0 <= i)%Z -> (Z.to_nat i < List.length cells)%nat) by exact H.
  unfold mapped_columns in G; cbn [In] in G.
  destruct (opt_cell_ok cells (ix_market ix) [] (G (ix_market ix) ltac:(tauto))) as [mt Hm].
  destruct (opt_cell_ok cells (ix_date ix) (iso_format today) (G (ix_date ix) ltac:(tauto))) as [dt Hd].
  destruct (opt_cell_none_ok cells (ix_classification ix) (G (ix_classification ix) ltac:(tauto))) as [cl Hcl].
  destruct (opt_cell_none_ok cells (ix_grade ix) (G (ix_grade ix) ltac:(tauto))) as [gr Hgr].
  destruct (opt_cell_none_ok cells (ix_sex ix) (G (ix_sex ix) ltac:(tauto))) as [sx Hsx].
  destruct (opt_cell_ok cells (ix_wholesale ix) [] (G (ix_wholesale ix) ltac:(tauto))) as [ws Hws].
  destruct (opt_cell_ok cells (ix_retail ix) [] (G (ix_retail ix) ltac:(tauto))) as [rt Hrt].
  destruct (opt_cell_ok cells (ix_volume ix) [] (G (ix_volume ix) ltac:(tauto))) as [vo Hvo].
  unfold scrape_row, bind. rewrite Hm.
  destruct (Z.leb_spec 0 (ix_county ix)) as [Hc|Hc].
  - destruct (cell_text_lt_ok cells (ix_county ix) (G (ix_county ix) ltac:(tauto) Hc)) as [c Ec].
    rewrite Ec, Hd, Hcl, Hgr, Hsx, Hws, Hrt, Hvo. eexists; reflexivity.
  - rewrite Hd, Hcl, Hgr, Hsx, Hws, Hrt, Hvo. eexists; reflexivity.
Qed.

Lemma scrape_rows_forall2 (today : date) (ix : idx_map) (product : text)
    (rows : list (list cell)) (recs : list ScrapedRecord) :
  scrape_rows today ix product rows = Ok recs <->
  Forall2 (fun cells r => scrape_row today ix product cells = Ok r)
    (filter (fun cells => negb (Nat.ltb (List.length cells) 3)) rows) recs.
Proof.
  revert recs; induction rows as [|cells rows IH]; intros recs; simpl.
  - split; intros H; [inversion H; constructor | inversion H; reflexivity].
  - destruct (Nat.ltb (List.length cells) 3); simpl; [apply IH|].
    unfold bind. split.
    + intros H. destruct (scrape_row today ix product cells) as [r|e] eqn:Er; [|discriminate].
      destruct (scrape_rows today ix product rows) as [rs|e] eqn:Ers; [|discriminate].
      inversion H; subst. constructor; [exact Er | apply IH; reflexivity].
    + intros H. inversion H as [|c r l1 rs Hr Hrs]; subst.
      rewrite Hr. apply IH in Hrs. rewrite Hrs. reflexivity.
Qed.

Lemma scrape_rows_err (today : date) (ix : idx_map) (product : text)
    (rows : list (list cell)) (cells : list cell) :
  In cells rows -> (3 <= List.length cells)%nat ->
  (forall r, scrape_row today ix product cells <> Ok r) ->
  forall recs, scrape_rows today ix product rows <> Ok recs.
Proof.
  intros Hin Hl Hr recs H. apply scrape_rows_forall2 in H.
  assert (Hf : In cells (filter (fun cells => negb (Nat.ltb (List.length cells) 3)) rows)).
  { apply filter_In; split; [exact Hin|].
    destruct (Nat.ltb_spec (List.length cells) 3); [lia | reflexivity]. }
  clear Hin Hl. induction H as [|c r l1 rs Hcr _ IH]; [contradiction|].
  destruct Hf as [<- | Hf]; [exact (Hr r Hcr) | exact (IH Hf)].
Qed.

(** A row of at least three cells that lacks a mapped column (a column
    index [i >= 0] with no cell [i]) raises [IndexError] in the row loop;
    the exception ends [scrape_product], which then returns no record for
    the product at all, also none from the well-formed rows. *)
Theorem scrape_product_short_row (today : date)
    (fetch_page : nat -> result (option table)) (pid : nat) (product : text)
    (tb : table) (rows : list (list cell)) (cells : list cell) (i : Z) :
  fetch_page pid = Ok (Some tb) -> tbody tb = Some rows ->
  In cells rows -> (3 <= List.length cells)%nat ->
  In i (mapped_columns (make_idx_map (table_headers tb))) -> (0 <= i)%Z ->
  (List.length cells <= Z.to_nat i)%nat ->
  scrape_product today fetch_page pid product = [].
Proof.
  intros Hf Hb Hin Hl Hi Hnn Hshort.
  unfold scrape_product, bind. rewrite Hf. unfold scrape_table. rewrite Hb.
  destruct (scrape_rows today (make_idx_map (table_headers tb)) product rows) as [recs|e] eqn:E;
    [|reflexivity].
  exfalso. revert E. apply (scrape_rows_err _ _ _ _ cells Hin Hl).
  intros r Hr. pose proof (scrape_row_ok_cols _ _ _ _ _ Hr i Hi Hnn). lia.
Qed.

Lemma scrape_product_short_row_witness :
  scrape_product (mkDate 2026 10 15) (fun _ => Ok (Some short_row_table)) 1 (t "Maize") = [].
Proof.
  apply (scrape_product_short_row (mkDate 2026 10 15) (fun _ => Ok (Some short_row_table)) 1
           (t "Maize") short_row_table [[[t "Wakulima"]; [t "Nairobi"]; [t "40"]]]
           [[t "Wakulima"]; [t "Nairobi"]; [t "40"]] 3%Z);
    try reflexivity.
  - left; reflexivity.
  - vm_compute. do 6 right. left. reflexivity.
  - lia.
Defined.

(** When every row of at least three cells has a cell for each mapped
    column, [scrape_product] returns one record per such row. *)
Theorem scrape_product_all_rows (today : date)
    (fetch_page : nat -> result (option table)) (pid : nat) (product : text)
    (tb : table) (rows : list (list cell)) :
  fetch_page pid = Ok (Some tb) -> tbody tb = Some rows ->
  (forall cells, In cells rows -> (3 <= List.length cells)%nat ->
     forall i, In i (mapped_columns (make_idx_map (table_headers tb))) -> (0 <= i)%Z ->
     (Z.to_nat i < List.length cells)%nat) ->
  List.length (scrape_product today fetch_page pid product) =
  List.length (filter (fun cells => negb (Nat.ltb (List.length cells) 3)) rows).
Proof.
  intros Hf Hb Hcols.
  unfold scrape_product, bind. rewrite Hf. unfold scrape_table. rewrite Hb.
  set (ix := make_idx_map (table_headers tb)) in *.
  assert (Hok : exists recs, scrape_rows today ix product rows = Ok recs).
  { clear Hf Hb. induction rows as [|cells rows IH]; simpl; [eexists; reflexivity|].
    destruct (Nat.ltb_spec (List.length cells) 3) as [Hlt|Hge].
    - apply IH. intros c Hc; apply Hcols; right; exact Hc.
    - destruct (scrape_row_cols_ok today ix product cells
                  (Hcols cells (or_introl eq_refl) Hge)) as [r Hr].
      destruct IH as [recs Hrecs]; [intros c Hc; apply Hcols; right; exact Hc|].
      unfold bind; rewrite Hr, Hrecs. eexists; reflexivity. }
  destruct Hok as [recs Hrecs]. rewrite Hrecs.
  apply scrape_rows_forall2 in Hrecs. symmetry; eapply Forall2_length; exact Hrecs.
Qed.

Lemma scrape_product_all_rows_witness :
  List.length (scrape_product (mkDate 2026 10 15)
                 (fun _ => Ok (Some {| thead := Some [[t "Market"]; [t "Price"]];
                                        tbody := Some [[[t "Wakulima"]; [t "40"]; [t "x"]];
                                                       [[t "Gikomba"]]] |})) 1 (t "Maize"))
  = 1%nat.
Proof.
  apply (scrape_product_all_rows (mkDate 2026 10 15) _ 1 (t "Maize")
           {| thead := Some [[t "Market"]; [t "Price"]];
              tbody := Some [[[t "Wakulima"]; [t "40"]; [t "x"]]; [[t "Gikomba"]]] |}
           [[[t "Wakulima"]; [t "40"]; [t "x"]]; [[t "Gikomba"]]]); try reflexivity.
  intros cells Hc Hl i Hi Hnn. vm_compute in Hi.
  destruct Hc as [<- | [<- | []]]; simpl in Hl |- *; [|lia].
  repeat destruct Hi as [<- | Hi]; try lia; contradiction.
Defined.

(** Without a date column, a row's date is the text of the current date,
    [str(date.today())], parsed back: the record is dated today whenever
    today is a valid date. *)
Theorem scrape_row_no_date_column (today : date) (ix : idx_map) (product : text)
    (cells : list cell) (r : ScrapedRecord) :
  (ix_date ix < 0)%Z -> valid_date today = true ->
  scrape_row today ix product cells = Ok r -> price_date r = today.
Proof.
  intros Hd Hv H. unfold scrape_row, bind in H.
  destruct (opt_cell cells (ix_market ix) []) as [mt|e]; [|discriminate].
  assert (Hdt : opt_cell cells (ix_date ix) (iso_format today) = Ok (iso_format today)).
  { unfold opt_cell. destruct (Z.leb_spec 0 (ix_date ix)); [lia | reflexivity]. }
  destruct (0 <=? ix_county ix)%Z.
  - destruct (cell_text cells (ix_county ix)); [|discriminate].
    rewrite Hdt in H. split_results H. inversion H; subst; simpl.
    apply parse_date_iso_format_valid, Hv.
  - rewrite Hdt in H. split_results H. inversion H; subst; simpl.
    apply parse_date_iso_format_valid, Hv.
Qed.

Lemma scrape_row_no_date_column_witness :
  exists r,
    (ix_date (make_idx_map [t "market"; t "price"]) < 0)%Z /\
    valid_date (mkDate 2026 10 15) = true /\
    scrape_row (mkDate 2026 10 15) (make_idx_map [t "market"; t "price"]) (t "Maize")
      [[t "Wakulima"]; [t "40"]; [t "x"]] = Ok r /\
    price_date r = mkDate 2026 10 15.
Proof.
  assert (H1 : (ix_date (make_idx_map [t "market"; t "price"]) < 0)%Z) by (vm_compute; reflexivity).
  assert (H2 : valid_date (mkDate 2026 10 15) = true) by reflexivity.
  destruct (scrape_row (mkDate 2026 10 15) (make_idx_map [t "market"; t "price"]) (t "Maize")
              [[t "Wakulima"]; [t "40"]; [t "x"]]) as [r|e] eqn:E;
    [|vm_compute in E; discriminate].
  exists r. split; [exact H1|]. split; [exact H2|]. split; [reflexivity|].
  exact (scrape_row_no_date_column _ _ _ _ _ H1 H2 E).
Defined.
